(** * BIMxBEM, [IfcPython/read_boundaries.py]

    A shallow embedding of the script that reads the second level space
    boundaries of an IFC file into a FreeCAD document, and of the passes it
    runs over them: pairing of corresponding boundaries, detection of coplanar
    boundaries and attachment of hosted boundaries to their host.

    Python objects live in a store indexed by object identity; the attributes
    the script reads and writes are record fields.  A computation is a function
    from the document to an outcome that is either a returned value or a raised
    exception, and in both cases carries the document as the computation left
    it: a Python exception does not undo the assignments made before it.

    What FreeCAD, Part and ifcopenshell compute (floating point arithmetic,
    the coplanarity test of two planes, the construction of a face) is not in
    the script: numbers are an abstract type with the operations the script
    applies to them, and the geometric kernel is a class of operations that
    answer a value or raise. *)

From Stdlib Require Import List String ZArith Bool Lia PeanoNat.
Import ListNotations.

Set Implicit Arguments.

(** ** Numbers

    Python floats.  No law of arithmetic is assumed of them: the definitions
    below only apply the operations in the order the script does. *)

Class FloatOps (F : Type) : Type := {
  fadd : F -> F -> F;
  fsub : F -> F -> F;
  fmul : F -> F -> F;
  fsqrt : F -> F;
  (** [a < b] *)
  fltb : F -> F -> bool;
  (** the float of a Python integer literal *)
  of_int : Z -> F
}.

(** Integers are the instance on which the definitions are run. *)
#[export] Instance Z_FloatOps : FloatOps Z := {
  fadd := Z.add;
  fsub := Z.sub;
  fmul := Z.mul;
  fsqrt := Z.sqrt;
  fltb := Z.ltb;
  of_int := fun n => n
}.

(** [SCALE = 1000]: IfcOpenShell works in metres, FreeCAD in millimetres. *)
Definition SCALE : Z := 1000.

(** [BREP = False] *)
Definition BREP : bool := false.

(** ** FreeCAD vectors and matrices *)

Record Vector (F : Type) : Type := mkVector { vx : F; vy : F; vz : F }.

(** [FreeCAD.Matrix(a11, a12, ..., a44)]: sixteen numbers, given row by row. *)
Record Matrix (F : Type) : Type := mkMatrix {
  A11 : F; A12 : F; A13 : F; A14 : F;
  A21 : F; A22 : F; A23 : F; A24 : F;
  A31 : F; A32 : F; A33 : F; A34 : F;
  A41 : F; A42 : F; A43 : F; A44 : F
}.

Section Vectors.
Context {F : Type} `{FloatOps F}.

(** [v.scale(a, b, c)] *)
Definition scale (v : Vector F) (a b c : Z) : Vector F :=
  mkVector (fmul (vx v) (of_int a)) (fmul (vy v) (of_int b))
           (fmul (vz v) (of_int c)).

(** [u.cross(w)] *)
Definition cross (u w : Vector F) : Vector F :=
  mkVector (fsub (fmul (vy u) (vz w)) (fmul (vz u) (vy w)))
           (fsub (fmul (vz u) (vx w)) (fmul (vx u) (vz w)))
           (fsub (fmul (vx u) (vy w)) (fmul (vy u) (vx w))).

Definition dot (u w : Vector F) : F :=
  fadd (fadd (fmul (vx u) (vx w)) (fmul (vy u) (vy w))) (fmul (vz u) (vz w)).

(** [p.distanceToPoint(q)] *)
Definition distanceToPoint (p q : Vector F) : F :=
  let d := mkVector (fsub (vx p) (vx q)) (fsub (vy p) (vy q))
                    (fsub (vz p) (vz q)) in
  fsqrt (dot d d).

(** The columns of the upper three rows of a matrix. *)
Definition column1 (m : Matrix F) : Vector F := mkVector (A11 m) (A21 m) (A31 m).
Definition column2 (m : Matrix F) : Vector F := mkVector (A12 m) (A22 m) (A32 m).
Definition column3 (m : Matrix F) : Vector F := mkVector (A13 m) (A23 m) (A33 m).
Definition column4 (m : Matrix F) : Vector F := mkVector (A14 m) (A24 m) (A34 m).
Definition row4 (m : Matrix F) : F * F * F * F := (A41 m, A42 m, A43 m, A44 m).
End Vectors.

(** The opposite of a vector of integers. *)
Definition opposite (v : Vector Z) : Vector Z :=
  mkVector (- vx v)%Z (- vy v)%Z (- vz v)%Z.

(** ** Python exceptions *)

Inductive exn : Type :=
  | RuntimeError
  | ValueError
  | IndexError
  | AttributeError
  | UnboundLocalError
  | AssertionError
  | TypeError.

(** What [print] wrote. *)
Inductive message : Type :=
  | Failed_to_generate_brep_from (GlobalId : string)
  | Failed_to_generate_mesh_from (GlobalId : string).

(** The values of the [InternalOrExternalBoundary] enumeration property. *)
Inductive InternalOrExternalEnum : Type :=
  | INTERNAL
  | EXTERNAL
  | EXTERNAL_EARTH
  | EXTERNAL_WATER
  | EXTERNAL_FIRE
  | NOTDEFINED.

Definition InternalOrExternalEnum_eqb (a b : InternalOrExternalEnum) : bool :=
  match a, b with
  | INTERNAL, INTERNAL | EXTERNAL, EXTERNAL
  | EXTERNAL_EARTH, EXTERNAL_EARTH | EXTERNAL_WATER, EXTERNAL_WATER
  | EXTERNAL_FIRE, EXTERNAL_FIRE | NOTDEFINED, NOTDEFINED => true
  | _, _ => false
  end.

(** ** The IFC entities the script reads *)

Module Ifc.

(** An [IfcCurve], passed to ifcopenshell as it is: its entity number
    ([Surface_id] below is the entity number of a surface). *)
Definition Curve : Type := nat.

(** [IfcAxis2Placement3D]: [Location.Coordinates],
    [RefDirection.DirectionRatios] and [Axis.DirectionRatios]. *)
Record Position (F : Type) : Type := mkPosition {
  Location : Vector F;
  RefDirection : Vector F;
  Axis : Vector F
}.

(** [IfcCurveBoundedPlane], the [SurfaceOnRelatingElement] of a boundary.
    [BasisSurface] stands for [BasisSurface.Position]. *)
Record CurveBoundedPlane (F : Type) : Type := mkCurveBoundedPlane {
  Surface_id : nat;
  OuterBoundary : Curve;
  InnerBoundaries : option (list Curve);
  BasisSurface : Position F
}.

(** [IfcElement] *)
Record Element : Type := mkElement {
  Element_GlobalId : string;
  FillsVoids : list nat;
  ProvidesBoundaries : list nat
}.

(** [IfcRelSpaceBoundary] *)
Record RelSpaceBoundary (F : Type) : Type := mkRelSpaceBoundary {
  Name : string;
  GlobalId : string;
  RelatedBuildingElement : Element;
  InternalOrExternalBoundary : InternalOrExternalEnum;
  SurfaceOnRelatingElement : CurveBoundedPlane F
}.

(** [IfcSpace] *)
Record Space (F : Type) : Type := mkSpace {
  Space_Name : string;
  LongName : string;
  BoundedBy : list (RelSpaceBoundary F)
}.

(** What [ifc_file.by_type] answers for ["IfcElement"] and ["IfcSpace"]. *)
Record File (F : Type) : Type := mkFile {
  IfcElement : list Element;
  IfcSpace : list (Space F)
}.

End Ifc.

Section GetMatrix.
Context {F : Type} `{FloatOps F}.

(** Transform position to [FreeCAD.Matrix]. *)
Definition get_matrix (position : Ifc.Position F) : Matrix F :=
  let location := scale (Ifc.Location position) SCALE SCALE SCALE in
  let v_1 := Ifc.RefDirection position in
  let v_3 := Ifc.Axis position in
  let v_2 := cross v_3 v_1 in
  mkMatrix
    (vx v_1) (vx v_2) (vx v_3) (vx location)
    (vy v_1) (vy v_2) (vy v_3) (vy location)
    (vz v_1) (vz v_2) (vz v_3) (vz location)
    (of_int 0) (of_int 0) (of_int 0) (of_int 1).

End GetMatrix.

(** ** Part shapes *)

Module Part.

(** What the script reads of a shape: [Vertexes[0].Point], [normalAt(0, 0)],
    [Area] and [CenterOfMass]. *)
Record Shape (F : Type) : Type := mkShape {
  Vertexes_0_Point : Vector F;
  normalAt_0_0 : Vector F;
  Area : F;
  CenterOfMass : Vector F
}.

(** [Part.Plane(point, normal)] *)
Record Plane (F : Type) : Type := mkPlane {
  Position : Vector F;
  Normal : Vector F
}.

End Part.

(** ** The geometric kernel

    The calls into Part and ifcopenshell, each a function of its arguments
    that answers a value or raises. *)

Class Kernel (F : Type) : Type := {
  (** [plane_1.toShape().isCoplanar(plane_2.toShape())] *)
  isCoplanar : Part.Plane F -> Part.Plane F -> bool;
  (** a [Part.Wire] *)
  Wire : Type;
  (** [_polygon_by_mesh]: the mesh ifcopenshell makes of an entity (a curve
      or a surface, named by its number), as a polygon through its vertices *)
  _polygon_by_mesh : nat -> exn + Wire;
  (** [Part.makeFace(wires, "Part::FaceMakerBullseye")] *)
  makeFace : list Wire -> exn + Part.Shape F;
  (** [Part.Face(wire)] *)
  Face : Wire -> exn + Part.Shape F;
  (** [shape.transformGeometry(matrix)] *)
  transformGeometry : Part.Shape F -> Matrix F -> exn + Part.Shape F;
  (** [_part_by_brep]: the shape ifcopenshell makes of a surface, imported
      from its brep string and scaled *)
  _part_by_brep : Ifc.CurveBoundedPlane F -> exn + Part.Shape F;
  (** [get_placement]: the placement ifcopenshell computes for a space *)
  get_placement : Ifc.Space F -> exn + Matrix F;
  (** the shape of an object once its [Placement] is assigned *)
  placed : Part.Shape F -> Matrix F -> Part.Shape F
}.

(** ** The FreeCAD document *)

(** A [RelSpaceBoundary] feature.  Links hold the identity of the object
    they point to, [None] for an empty link. *)
Record FcBoundary (F : Type) : Type := mkFcBoundary {
  GlobalId : string;
  RelatingSpace : option nat;
  RelatedBuildingElement : option nat;
  InternalOrExternalBoundary : InternalOrExternalEnum;
  CorrespondingBoundary : option nat;
  ParentBoundary : option nat;
  InnerBoundaries : list nat;
  CoplanarWith : list nat;
  IsHosted : bool;
  Area : F;
  AreaWithHosted : F;
  Shape : Part.Shape F;
  Placement : option (Matrix F)
}.

(** An [Element] feature. *)
Record FcElement : Type := mkFcElement {
  Element_GlobalId : string;
  ProvidesBoundaries : list nat
}.

(** An [App::DocumentObjectGroup]. *)
Record FcGroup : Type := mkFcGroup {
  Label : string;
  Group : list nat
}.

(** The objects of the document by kind, the two groups the passes walk
    ([SecondLevel] and [Elements]), the next free object identity and the
    lines printed so far. *)
Record Document (F : Type) : Type := mkDocument {
  boundary : nat -> FcBoundary F;
  element : nat -> FcElement;
  space_group : nat -> FcGroup;
  group_2nd : list nat;
  elements_group : list nat;
  next_object : nat;
  stdout : list message
}.

(** A reference to a document object, or [None]. *)
Inductive doc_object : Type :=
  | BoundaryObject (b : nat)
  | ElementObject (e : nat)
  | NoneObject.

(** ** Computations *)

Inductive outcome (S A : Type) : Type :=
  | Return (a : A) (doc : S)
  | Raise (e : exn) (doc : S).
Arguments Return {S A} a doc.
Arguments Raise {S A} e doc.

Definition document_of {S A : Type} (o : outcome S A) : S :=
  match o with Return _ doc => doc | Raise _ doc => doc end.

Definition M (F A : Type) : Type := Document F -> outcome (Document F) A.

Definition ret {F A : Type} (a : A) : M F A := fun doc => Return a doc.

Definition raise {F A : Type} (e : exn) : M F A := fun doc => Raise e doc.

Definition bind {F A B : Type} (c : M F A) (k : A -> M F B) : M F B :=
  fun doc =>
    match c doc with
    | Return a doc' => k a doc'
    | Raise e doc' => Raise e doc'
    end.

Declare Scope py_scope.
Delimit Scope py_scope with py.
Notation "x <- c ;; k" := (bind c (fun x => k))
  (at level 61, c at next level, right associativity) : py_scope.
Notation "c ;; k" := (bind c (fun _ => k))
  (at level 61, right associativity) : py_scope.
Local Open Scope py_scope.

(** The value an external call answered, or the exception it raised. *)
Definition call {F A : Type} (r : exn + A) : M F A :=
  match r with inl e => raise e | inr a => ret a end.

(** [try: c except RuntimeError: handler] *)
Definition try_except_RuntimeError {F A : Type} (c : M F A) (handler : M F A)
  : M F A :=
  fun doc =>
    match c doc with
    | Raise RuntimeError doc' => handler doc'
    | o => o
    end.

(** Reading a local variable, bound or not. *)
Definition read_local {F A : Type} (v : option A) : M F A :=
  match v with Some a => ret a | None => raise UnboundLocalError end.

(** [l[0]] *)
Definition index_0 {F A : Type} (l : list A) : M F A :=
  match l with a :: _ => ret a | [] => raise IndexError end.

(** [for x in l: body(x)] *)
Fixpoint for_each {F A : Type} (l : list A) (body : A -> M F unit)
  : M F unit :=
  match l with
  | [] => ret tt
  | a :: l' => body a ;; for_each l' body
  end.

(** A loop whose body reads and assigns a local variable [v]. *)
Fixpoint for_each_with {F A V : Type} (l : list A) (v : V)
  (body : V -> A -> M F V) : M F V :=
  match l with
  | [] => ret v
  | a :: l' => v' <- body v a ;; for_each_with l' v' body
  end.

(** [print(m)] *)
Definition print {F : Type} (m : message) : M F unit :=
  fun doc =>
    Return tt (mkDocument (boundary doc) (element doc) (space_group doc)
                 (group_2nd doc) (elements_group doc) (next_object doc)
                 (stdout doc ++ [m])).

(** [assert cond] *)
Definition py_assert {F : Type} (cond : bool) : M F unit :=
  if cond then ret tt else raise AssertionError.

(** The truth value of an exception class: a class object is true. *)
Definition bool_of_class (e : exn) : bool := true.

(** [itertools.combinations(l, 2)] *)
Fixpoint combinations {A : Type} (l : list A) : list (A * A) :=
  match l with
  | [] => []
  | a :: l' => map (pair a) l' ++ combinations l'
  end.

(** [l.remove(x)]: the list without the first occurrence of [x]. *)
Fixpoint remove (x : nat) (l : list nat) : exn + list nat :=
  match l with
  | [] => inl ValueError
  | y :: l' =>
      if Nat.eqb y x then inr l'
      else match remove x l' with
           | inl e => inl e
           | inr r => inr (y :: r)
           end
  end.

(** ** Reading and assigning properties *)

Section Properties.
Context {F : Type} `{FloatOps F}.

Definition with_RelatingSpace (v : option nat) (r : FcBoundary F) : FcBoundary F :=
  mkFcBoundary (GlobalId r) v (RelatedBuildingElement r)
    (InternalOrExternalBoundary r) (CorrespondingBoundary r) (ParentBoundary r)
    (InnerBoundaries r) (CoplanarWith r) (IsHosted r) (Area r)
    (AreaWithHosted r) (Shape r) (Placement r).

Definition with_RelatedBuildingElement (v : option nat) (r : FcBoundary F)
  : FcBoundary F :=
  mkFcBoundary (GlobalId r) (RelatingSpace r) v
    (InternalOrExternalBoundary r) (CorrespondingBoundary r) (ParentBoundary r)
    (InnerBoundaries r) (CoplanarWith r) (IsHosted r) (Area r)
    (AreaWithHosted r) (Shape r) (Placement r).

Definition with_CorrespondingBoundary (v : option nat) (r : FcBoundary F)
  : FcBoundary F :=
  mkFcBoundary (GlobalId r) (RelatingSpace r) (RelatedBuildingElement r)
    (InternalOrExternalBoundary r) v (ParentBoundary r)
    (InnerBoundaries r) (CoplanarWith r) (IsHosted r) (Area r)
    (AreaWithHosted r) (Shape r) (Placement r).

Definition with_ParentBoundary (v : option nat) (r : FcBoundary F) : FcBoundary F :=
  mkFcBoundary (GlobalId r) (RelatingSpace r) (RelatedBuildingElement r)
    (InternalOrExternalBoundary r) (CorrespondingBoundary r) v
    (InnerBoundaries r) (CoplanarWith r) (IsHosted r) (Area r)
    (AreaWithHosted r) (Shape r) (Placement r).

Definition with_InnerBoundaries (v : list nat) (r : FcBoundary F) : FcBoundary F :=
  mkFcBoundary (GlobalId r) (RelatingSpace r) (RelatedBuildingElement r)
    (InternalOrExternalBoundary r) (CorrespondingBoundary r) (ParentBoundary r)
    v (CoplanarWith r) (IsHosted r) (Area r)
    (AreaWithHosted r) (Shape r) (Placement r).

Definition with_CoplanarWith (v : list nat) (r : FcBoundary F) : FcBoundary F :=
  mkFcBoundary (GlobalId r) (RelatingSpace r) (RelatedBuildingElement r)
    (InternalOrExternalBoundary r) (CorrespondingBoundary r) (ParentBoundary r)
    (InnerBoundaries r) v (IsHosted r) (Area r)
    (AreaWithHosted r) (Shape r) (Placement r).

Definition with_AreaWithHosted (v : F) (r : FcBoundary F) : FcBoundary F :=
  mkFcBoundary (GlobalId r) (RelatingSpace r) (RelatedBuildingElement r)
    (InternalOrExternalBoundary r) (CorrespondingBoundary r) (ParentBoundary r)
    (InnerBoundaries r) (CoplanarWith r) (IsHosted r) (Area r)
    v (Shape r) (Placement r).

Definition with_Shape (v : Part.Shape F) (r : FcBoundary F) : FcBoundary F :=
  mkFcBoundary (GlobalId r) (RelatingSpace r) (RelatedBuildingElement r)
    (InternalOrExternalBoundary r) (CorrespondingBoundary r) (ParentBoundary r)
    (InnerBoundaries r) (CoplanarWith r) (IsHosted r) (Area r)
    (AreaWithHosted r) v (Placement r).

Definition with_Placement (v : option (Matrix F)) (r : FcBoundary F)
  : FcBoundary F :=
  mkFcBoundary (GlobalId r) (RelatingSpace r) (RelatedBuildingElement r)
    (InternalOrExternalBoundary r) (CorrespondingBoundary r) (ParentBoundary r)
    (InnerBoundaries r) (CoplanarWith r) (IsHosted r) (Area r)
    (AreaWithHosted r) (Shape r) v.

(** The store with the object [i] replaced. *)
Definition store_set {A : Type} (store : nat -> A) (i : nat) (a : A) : nat -> A :=
  fun j => if Nat.eqb j i then a else store j.

Definition update_boundary (obj : nat) (f : FcBoundary F -> FcBoundary F)
  : M F unit :=
  fun doc =>
    Return tt (mkDocument (store_set (boundary doc) obj (f (boundary doc obj)))
                 (element doc) (space_group doc) (group_2nd doc)
                 (elements_group doc) (next_object doc) (stdout doc)).

Definition update_element (obj : nat) (f : FcElement -> FcElement) : M F unit :=
  fun doc =>
    Return tt (mkDocument (boundary doc)
                 (store_set (element doc) obj (f (element doc obj)))
                 (space_group doc) (group_2nd doc)
                 (elements_group doc) (next_object doc) (stdout doc)).

Definition update_space_group (obj : nat) (f : FcGroup -> FcGroup) : M F unit :=
  fun doc =>
    Return tt (mkDocument (boundary doc) (element doc)
                 (store_set (space_group doc) obj (f (space_group doc obj)))
                 (group_2nd doc) (elements_group doc) (next_object doc)
                 (stdout doc)).

(** The properties of a boundary, as they are now. *)
Definition read_boundary (obj : nat) : M F (FcBoundary F) :=
  fun doc => Return (boundary doc obj) doc.

(** [RelSpaceBoundary.recompute_area_with_hosted] *)
Definition recompute_area_with_hosted (doc : Document F) (obj : nat) : F :=
  fold_left (fun area inner => fadd area (Area (boundary doc inner)))
    (InnerBoundaries (boundary doc obj)) (Area (boundary doc obj)).

(** [RelSpaceBoundary.onChanged], which FreeCAD calls after a property of the
    object was assigned.  (The assignment it makes itself calls it again, for
    ["AreaWithHosted"], where it does nothing.) *)
Definition onChanged (obj : nat) (prop : string) : M F unit :=
  if String.eqb prop "InnerBoundaries" then
    fun doc =>
      update_boundary obj
        (with_AreaWithHosted (recompute_area_with_hosted doc obj)) doc
  else ret tt.

(** [obj.prop = v] on a boundary *)
Definition assign (obj : nat) (prop : string)
  (f : FcBoundary F -> FcBoundary F) : M F unit :=
  update_boundary obj f ;; onChanged obj prop.

(** [getattr(doc_object, fc_property)] for the list properties: FreeCAD
    answers a new list each time. *)
Definition getattr (o : doc_object) (fc_property : string) : M F (list nat) :=
  fun doc =>
    match o with
    | BoundaryObject b =>
        if String.eqb fc_property "InnerBoundaries" then
          Return (InnerBoundaries (boundary doc b)) doc
        else if String.eqb fc_property "CoplanarWith" then
          Return (CoplanarWith (boundary doc b)) doc
        else Raise AttributeError doc
    | ElementObject e =>
        if String.eqb fc_property "ProvidesBoundaries" then
          Return (ProvidesBoundaries (element doc e)) doc
        else Raise AttributeError doc
    | NoneObject => Raise AttributeError doc
    end.

(** [setattr(doc_object, fc_property, value)] for the list properties *)
Definition setattr (o : doc_object) (fc_property : string) (value : list nat)
  : M F unit :=
  match o with
  | BoundaryObject b =>
      if String.eqb fc_property "InnerBoundaries" then
        assign b fc_property (with_InnerBoundaries value)
      else if String.eqb fc_property "CoplanarWith" then
        assign b fc_property (with_CoplanarWith value)
      else raise AttributeError
  | ElementObject e =>
      if String.eqb fc_property "ProvidesBoundaries" then
        update_element e (fun r => mkFcElement (Element_GlobalId r) value)
      else raise AttributeError
  | NoneObject => raise AttributeError
  end.

Definition append (o : doc_object) (fc_property : string) (value : nat)
  : M F unit :=
  current_value <- getattr o fc_property ;;
  setattr o fc_property (current_value ++ [value]).

End Properties.

(** ** The script *)

Section Script.
Context {F : Type} `{FloatOps F} `{Kernel F}.

(** Python's truth value of a link and of a list. *)
Definition bool_of_link (v : option nat) : bool :=
  match v with Some _ => true | None => false end.

Definition bool_of_list {A : Type} (l : list A) : bool :=
  match l with [] => false | _ :: _ => true end.

(** [a != b] on links *)
Definition link_neqb (a b : option nat) : bool :=
  match a, b with
  | Some i, Some j => negb (Nat.eqb i j)
  | None, None => false
  | _, _ => true
  end.

Definition element_object (v : option nat) : doc_object :=
  match v with Some e => ElementObject e | None => NoneObject end.

Definition get_plane (fc_boundary : FcBoundary F) : Part.Plane F :=
  Part.mkPlane (Part.Vertexes_0_Point (Shape fc_boundary))
               (Part.normalAt_0_0 (Shape fc_boundary)).

Definition is_coplanar (shape_1 shape_2 : FcBoundary F) : bool :=
  isCoplanar (get_plane shape_1) (get_plane shape_2).

Definition clean_corresponding_candidates (fc_boundary : nat) : M F (list nat) :=
  this <- read_boundary fc_boundary ;;
  other_boundaries <-
    getattr (element_object (RelatedBuildingElement this)) "ProvidesBoundaries" ;;
  other_boundaries <- call (remove fc_boundary other_boundaries) ;;
  fun doc =>
    Return
      (filter
         (fun b =>
            negb (bool_of_link (CorrespondingBoundary (boundary doc b)))
            || link_neqb (RelatingSpace (boundary doc b))
                         (RelatingSpace (boundary doc fc_boundary)))
         other_boundaries)
      doc.

(** One turn of the loop over the candidates: the running minimum
    [min_lenght] and the local [corresponding_boundary], unbound at first. *)
Definition closer (doc : Document F) (center_of_mass : Vector F)
  (locals : F * option nat) (candidate : nat) : F * option nat :=
  let distance :=
    distanceToPoint center_of_mass
      (Part.CenterOfMass (Shape (boundary doc candidate))) in
  if fltb distance (fst locals) then (distance, Some candidate) else locals.

Definition closest (doc : Document F) (fc_boundary : nat)
  (other_boundaries : list nat) : F * option nat :=
  let center_of_mass := Part.CenterOfMass (Shape (boundary doc fc_boundary)) in
  fold_left (closer doc center_of_mass) other_boundaries (of_int 10000, None).

Definition associate_corresponding_boundary (fc_boundary : nat) : M F unit :=
  this <- read_boundary fc_boundary ;;
  if negb (InternalOrExternalEnum_eqb (InternalOrExternalBoundary this) INTERNAL)
     || bool_of_link (CorrespondingBoundary this)
  then ret tt
  else
    other_boundaries <- clean_corresponding_candidates fc_boundary ;;
    local <-
      (if Nat.eqb (List.length other_boundaries) 1 then
         first <- index_0 other_boundaries ;;
         ret (Some first)
       else
         fun doc => Return (snd (closest doc fc_boundary other_boundaries)) doc) ;;
    corresponding_boundary <- read_local local ;;
    assign fc_boundary "CorrespondingBoundary"
      (with_CorrespondingBoundary (Some corresponding_boundary)) ;;
    assign corresponding_boundary "CorrespondingBoundary"
      (with_CorrespondingBoundary (Some fc_boundary)).

(** The first loop of the second half of [display_boundaries]:
    [for space_group in group_2nd.Group: for fc_boundary in space_group.Group] *)
Definition associate_boundaries_of (space_group_ : nat) : M F unit :=
  fc_boundaries <- (fun doc => Return (Group (space_group doc space_group_)) doc) ;;
  for_each fc_boundaries associate_corresponding_boundary.

Definition associate_corresponding_boundaries : M F unit :=
  groups <- (fun doc => Return (group_2nd doc) doc) ;;
  for_each groups associate_boundaries_of.

(** [for fc_boundary_1, fc_boundary_2 in itertools.combinations(fc_boundaries, 2)] *)
Definition register_coplanar (pair : nat * nat) : M F unit :=
  let (fc_boundary_1, fc_boundary_2) := pair in
  shape_1 <- read_boundary fc_boundary_1 ;;
  shape_2 <- read_boundary fc_boundary_2 ;;
  if is_coplanar shape_1 shape_2 then
    append (BoundaryObject fc_boundary_1) "CoplanarWith" fc_boundary_2 ;;
    append (BoundaryObject fc_boundary_2) "CoplanarWith" fc_boundary_1
  else ret tt.

Definition find_coplanar (fc_boundaries : list nat) : M F unit :=
  for_each (combinations fc_boundaries) register_coplanar.

(** [[b for b in fc_boundary.CoplanarWith if not b.IsHosted]] *)
Definition non_hosted_coplanar (doc : Document F) (fc_boundary : nat) : list nat :=
  filter (fun b => negb (IsHosted (boundary doc b)))
         (CoplanarWith (boundary doc fc_boundary)).

(** One turn of [for fc_boundary in fc_boundaries].  [host_element] is a
    local of [display_boundaries]: it keeps, from one turn to the next and
    from one space to the next, the value it was last assigned. *)
Definition associate_hosted (host_element : option nat) (fc_boundary : nat)
  : M F (option nat) :=
  this <- read_boundary fc_boundary ;;
  if IsHosted this then
    host_element <-
      (if Nat.eqb (List.length (CoplanarWith this)) 1 then
         first <- index_0 (CoplanarWith this) ;;
         assign fc_boundary "ParentBoundary" (with_ParentBoundary (Some first)) ;;
         ret (Some first)
       else ret host_element) ;;
    host <- read_local host_element ;;
    append (BoundaryObject host) "InnerBoundaries" fc_boundary ;;
    ret host_element
  else
    non_hosted_coplanar <-
      (fun doc => Return (non_hosted_coplanar doc fc_boundary) doc) ;;
    if negb (bool_of_list non_hosted_coplanar) then ret host_element
    else if Nat.eqb (List.length non_hosted_coplanar) 1 then ret host_element
    else ret host_element.

(** One turn of the second loop [for space_group in group_2nd.Group]. *)
Definition associate_hosted_elements_of (host_element : option nat)
  (space_group_ : nat) : M F (option nat) :=
  fc_boundaries <- (fun doc => Return (Group (space_group doc space_group_)) doc) ;;
  if Nat.eqb (List.length fc_boundaries) 5 then ret host_element
  else
    (if Nat.ltb (List.length fc_boundaries) 5
     then py_assert (bool_of_class ValueError)
     else ret tt) ;;
    find_coplanar fc_boundaries ;;
    for_each_with fc_boundaries host_element associate_hosted.

Definition associate_hosted_elements : M F unit :=
  groups <- (fun doc => Return (group_2nd doc) doc) ;;
  for_each_with groups None associate_hosted_elements_of ;;
  ret tt.

(** *** Shapes *)

(** The [try] block of [part_by_wires]: polygons are appended to
    [boundaries] until one raises; a [RuntimeError] is passed over. *)
Fixpoint append_inner_boundaries (boundaries : list Wire)
  (inner_boundaries : list Ifc.Curve) : exn + list Wire :=
  match inner_boundaries with
  | [] => inr boundaries
  | inner_boundary :: rest =>
      match _polygon_by_mesh inner_boundary with
      | inr polygon => append_inner_boundaries (boundaries ++ [polygon]) rest
      | inl RuntimeError => inr boundaries
      | inl e => inl e
      end
  end.

(** The functions below do not touch the document: they answer a shape or
    raise. *)
Definition part_by_wires (ifc_entity : Ifc.CurveBoundedPlane F)
  : exn + Part.Shape F :=
  match _polygon_by_mesh (Ifc.OuterBoundary ifc_entity) with
  | inl e => inl e
  | inr outer =>
      match append_inner_boundaries [outer]
              (match Ifc.InnerBoundaries ifc_entity with
               | Some inner_boundaries => inner_boundaries
               | None => []
               end)
      with
      | inl e => inl e
      | inr boundaries =>
          match makeFace boundaries with
          | inl e => inl e
          | inr fc_shape =>
              let matrix := get_matrix (Ifc.BasisSurface ifc_entity) in
              transformGeometry fc_shape matrix
          end
      end
  end.

Definition _part_by_mesh (ifc_entity : Ifc.CurveBoundedPlane F)
  : exn + Part.Shape F :=
  match _polygon_by_mesh (Ifc.Surface_id ifc_entity) with
  | inl e => inl e
  | inr polygon => Face polygon
  end.

(** [create_fc_shape], for a value [brep] of the module's constant [BREP]. *)
Definition create_fc_shape_with (brep : bool)
  (space_boundary : Ifc.RelSpaceBoundary F) : M F (Part.Shape F) :=
  let surface := Ifc.SurfaceOnRelatingElement space_boundary in
  let by_wires_or_mesh :=
    try_except_RuntimeError (call (part_by_wires surface))
      (print (Failed_to_generate_mesh_from (Ifc.GlobalId space_boundary)) ;;
       call (_part_by_mesh surface)) in
  if brep then
    try_except_RuntimeError (call (_part_by_brep surface))
      (print (Failed_to_generate_brep_from (Ifc.GlobalId space_boundary)) ;;
       by_wires_or_mesh)
  else by_wires_or_mesh.

Definition create_fc_shape : Ifc.RelSpaceBoundary F -> M F (Part.Shape F) :=
  create_fc_shape_with BREP.

(** *** Objects *)

(** The properties of a boundary that was just added to the document, with
    what [__init__] assigns before it asks for the shape. *)
Definition new_boundary (ifc_entity : Ifc.RelSpaceBoundary F) : FcBoundary F :=
  let origin := mkVector (of_int 0) (of_int 0) (of_int 0) in
  mkFcBoundary (Ifc.GlobalId ifc_entity) None None
    (Ifc.InternalOrExternalBoundary ifc_entity) None None [] [] false
    (of_int 0) (of_int 0) (Part.mkShape origin origin (of_int 0) origin) None.

(** What [__init__] assigns once it has the shape. *)
Definition with_shape_and_areas (shape : Part.Shape F) (hosted : bool)
  (r : FcBoundary F) : FcBoundary F :=
  mkFcBoundary (GlobalId r) (RelatingSpace r) (RelatedBuildingElement r)
    (InternalOrExternalBoundary r) (CorrespondingBoundary r) (ParentBoundary r)
    (InnerBoundaries r) (CoplanarWith r)
    (if hosted then true else IsHosted r)
    (Part.Area shape) (Part.Area shape) shape (Placement r).

Definition make_relspaceboundary (ifc_entity : Ifc.RelSpaceBoundary F) : M F nat :=
  obj <-
    (fun doc =>
       let obj := next_object doc in
       Return obj
         (mkDocument (store_set (boundary doc) obj (new_boundary ifc_entity))
            (element doc) (space_group doc) (group_2nd doc)
            (elements_group doc) (S obj) (stdout doc))) ;;
  shape <- create_fc_shape ifc_entity ;;
  update_boundary obj
    (with_shape_and_areas shape
       (bool_of_list (Ifc.FillsVoids (Ifc.RelatedBuildingElement ifc_entity)))) ;;
  ret obj.

Definition create_fc_object_from_entity (ifc_entity : Ifc.Element) : M F nat :=
  fun doc =>
    let obj := next_object doc in
    Return obj
      (mkDocument (boundary doc)
         (store_set (element doc) obj
            (mkFcElement (Ifc.Element_GlobalId ifc_entity) []))
         (space_group doc) (group_2nd doc) (elements_group doc) (S obj)
         (stdout doc)).

(** [elements_group.addObject(obj)] *)
Definition elements_group_addObject (obj : nat) : M F unit :=
  fun doc =>
    Return tt
      (mkDocument (boundary doc) (element doc) (space_group doc) (group_2nd doc)
         (elements_group doc ++ [obj]) (next_object doc) (stdout doc)).

(** [group_2nd.newObject("App::DocumentObjectGroup", ...)] and its label *)
Definition group_2nd_newObject (label : string) : M F nat :=
  fun doc =>
    let obj := next_object doc in
    Return obj
      (mkDocument (boundary doc) (element doc)
         (store_set (space_group doc) obj (mkFcGroup label []))
         (group_2nd doc ++ [obj]) (elements_group doc) (S obj) (stdout doc)).

Definition get_related_element (ifc_entity : Ifc.RelSpaceBoundary F)
  : M F (option nat) :=
  let guid := Ifc.Element_GlobalId (Ifc.RelatedBuildingElement ifc_entity) in
  fun doc =>
    Return
      (find (fun e => String.eqb (Element_GlobalId (element doc e)) guid)
            (elements_group doc))
      doc.

(** The body of [for ifc_boundary in space.BoundedBy] *)
Definition generate_boundary (space_group_ : nat) (space_placement : Matrix F)
  (ifc_boundary : Ifc.RelSpaceBoundary F) : M F unit :=
  face <- make_relspaceboundary ifc_boundary ;;
  update_space_group space_group_
    (fun g => mkFcGroup (Label g) (Group g ++ [face])) ;;
  assign face "Placement"
    (fun r => with_Placement (Some space_placement)
                (with_Shape (placed (Shape r) space_placement) r)) ;;
  related <- get_related_element ifc_boundary ;;
  assign face "RelatedBuildingElement" (with_RelatedBuildingElement related) ;;
  append (element_object related) "ProvidesBoundaries" face ;;
  assign face "RelatingSpace" (with_RelatingSpace (Some space_group_)).

(** The body of [for space in spaces] *)
Definition generate_space (space : Ifc.Space F) : M F unit :=
  space_group_ <-
    group_2nd_newObject (Ifc.Space_Name space ++ " " ++ Ifc.LongName space)%string ;;
  space_placement <- call (get_placement space) ;;
  for_each
    (filter (fun b => String.eqb (Ifc.Name b) "2ndLevel") (Ifc.BoundedBy space))
    (generate_boundary space_group_ space_placement).

Definition generate_elements (ifc_file : Ifc.File F) : M F unit :=
  for_each
    (filter (fun e => bool_of_list (Ifc.ProvidesBoundaries e))
            (Ifc.IfcElement ifc_file))
    (fun ifc_entity =>
       obj <- create_fc_object_from_entity ifc_entity ;;
       elements_group_addObject obj).

Definition generate_boundaries (ifc_file : Ifc.File F) : M F unit :=
  for_each (Ifc.IfcSpace ifc_file) generate_space.

(** [display_boundaries], without the labels of the top groups and the
    final [doc.recompute()]. *)
Definition display_boundaries (ifc_file : Ifc.File F) : M F unit :=
  generate_elements ifc_file ;;
  generate_boundaries ifc_file ;;
  associate_corresponding_boundaries ;;
  associate_hosted_elements.

End Script.

(** ** Documents to run the script on

    A kernel over the integers and a few small buildings.  The mesh of the
    entity number [n] is a polygon that encloses the area [n], except that
    ifcopenshell fails on the entity number [0]; a face lies where the
    position of its surface puts it, its normal along the axis; two planes
    are coplanar when they have the same normal and the point of one lies in
    the other. *)

Module Example.
Local Open Scope Z_scope.

Definition vector_eqb (u w : Vector Z) : bool :=
  (Z.eqb (vx u) (vx w) && Z.eqb (vy u) (vy w) && Z.eqb (vz u) (vz w))%bool.

Definition flat (area : Z) : Part.Shape Z :=
  Part.mkShape (mkVector 0 0 0) (mkVector 0 0 1) area (mkVector 0 0 0).

#[global] Instance kernel : Kernel Z := {
  isCoplanar := fun p q =>
    (vector_eqb (Part.Normal p) (Part.Normal q)
     && Z.eqb (dot (Part.Normal p) (Part.Position p))
              (dot (Part.Normal p) (Part.Position q)))%bool;
  Wire := nat;
  _polygon_by_mesh := fun n =>
    match n with O => inl RuntimeError | S _ => inr n end;
  makeFace := fun wires => inr (flat (Z.of_nat (hd O wires)));
  Face := fun wire => inr (flat (Z.of_nat wire));
  transformGeometry := fun shape matrix =>
    inr (Part.mkShape (column4 matrix) (column3 matrix) (Part.Area shape)
           (column4 matrix));
  _part_by_brep := fun _ => inl RuntimeError;
  get_placement := fun _ =>
    inr (mkMatrix 1 0 0 0  0 1 0 0  0 0 1 0  0 0 0 1);
  placed := fun shape _ => shape
}.

(** A new document. *)
Definition new_document : Document Z :=
  mkDocument
    (fun _ => mkFcBoundary "" None None INTERNAL None None [] [] false 0 0
                (flat 0) None)
    (fun _ => mkFcElement "" [])
    (fun _ => mkFcGroup "" [])
    [] [] 0 [].

Definition wall (guid : string) : Ifc.Element := Ifc.mkElement guid [] [1%nat].

(** A window fills a void. *)
Definition window (guid : string) : Ifc.Element := Ifc.mkElement guid [1%nat] [1%nat].

(** The second level boundary [guid] of [element]: its outer boundary is the
    entity number [polygon], its surface is centred at [location] (in metres)
    and normal to [axis]. *)
Definition ifc_boundary (guid : string) (element : Ifc.Element)
  (kind : InternalOrExternalEnum) (polygon : nat) (location axis : Z * Z * Z)
  : Ifc.RelSpaceBoundary Z :=
  let vector := fun t : Z * Z * Z => mkVector (fst (fst t)) (snd (fst t)) (snd t) in
  Ifc.mkRelSpaceBoundary "2ndLevel" guid element kind
    (Ifc.mkCurveBoundedPlane polygon polygon None
       (Ifc.mkPosition (vector location) (mkVector 1 0 0) (vector axis))).

(** One wall between a long room and two short ones: each room has one
    boundary on the wall.  Objects: the wall is 0, the rooms are the groups
    1, 3, 5, their boundaries 2, 4, 6. *)
Definition three_rooms : Ifc.File Z :=
  let w := wall "W" in
  Ifc.mkFile [w]
    [ Ifc.mkSpace "A" "long room"
        [ifc_boundary "a" w INTERNAL 12 (3, 0, 0) (0, 1, 0)];
      Ifc.mkSpace "B" "short room"
        [ifc_boundary "b" w INTERNAL 6 (2, 1, 0) (0, 1, 0)];
      Ifc.mkSpace "C" "short room"
        [ifc_boundary "c" w INTERNAL 6 (4, 1, 0) (0, 1, 0)] ].

(** One wall between a long room and two short ones, in second level
    boundaries: the long room has one boundary in front of each short room.
    Objects: the wall is 0, the long room is the group 1 with the boundaries
    2 and 3, the short rooms are the groups 4 and 6 with the boundaries 5
    and 7. *)
Definition long_wall : Ifc.File Z :=
  let w := wall "W" in
  Ifc.mkFile [w]
    [ Ifc.mkSpace "A" "long room"
        [ifc_boundary "ab" w INTERNAL 6 (2, 0, 0) (0, 1, 0);
         ifc_boundary "ac" w INTERNAL 6 (4, 0, 0) (0, 1, 0)];
      Ifc.mkSpace "B" "short room"
        [ifc_boundary "b" w INTERNAL 6 (2, 1, 0) (0, 1, 0)];
      Ifc.mkSpace "C" "short room"
        [ifc_boundary "c" w INTERNAL 6 (4, 1, 0) (0, 1, 0)] ].

(** A wall of which one part is inside and one part outside.  Objects: the
    wall is 0, the rooms are the groups 1 and 3, their boundaries 2 and 4. *)
Definition inside_and_outside : Ifc.File Z :=
  let w := wall "W" in
  Ifc.mkFile [w]
    [ Ifc.mkSpace "A" "room"
        [ifc_boundary "a" w INTERNAL 12 (3, 0, 0) (0, 1, 0)];
      Ifc.mkSpace "B" "room"
        [ifc_boundary "b" w EXTERNAL 6 (2, 1, 0) (0, 1, 0)] ].

(** A room of six boundaries: a wall with its window, a wall in two parts
    with a window that touches both, and a floor.  Objects: the
    elements are 0 to 5, the room is the group 6, its boundaries are 7 (wall),
    8 (its window), 9 and 10 (the two parts of the other wall), 11 (the
    window in it), 12 (floor). *)
Definition hosting_room : Ifc.File Z :=
  let w1 := wall "W1" in
  let h1 := window "H1" in
  let w2 := wall "W2" in
  let h2 := window "H2" in
  let f := wall "F" in
  let c := wall "C" in
  Ifc.mkFile [w1; h1; w2; h2; f; c]
    [ Ifc.mkSpace "A" "room"
        [ ifc_boundary "w1" w1 EXTERNAL 12 (1, 0, 1) (0, 1, 0);
          ifc_boundary "h1" h1 EXTERNAL 2 (2, 0, 1) (0, 1, 0);
          ifc_boundary "w2a" w2 EXTERNAL 5 (5, 1, 1) (1, 0, 0);
          ifc_boundary "w2b" w2 EXTERNAL 7 (5, 3, 1) (1, 0, 0);
          ifc_boundary "h2" h2 EXTERNAL 3 (5, 2, 1) (1, 0, 0);
          ifc_boundary "f" f EXTERNAL 20 (2, 2, 0) (0, 0, 1) ] ].

(** The same room without the first wall and its window, with a ceiling
    and a second piece of floor: the first hosted boundary met has two
    coplanar boundaries.  The room is the group 4, its boundaries are 5 to
    10, 7 is the window. *)
Definition ambiguous_room : Ifc.File Z :=
  let w2 := wall "W2" in
  let h2 := window "H2" in
  let f := wall "F" in
  let c := wall "C" in
  Ifc.mkFile [w2; h2; f; c]
    [ Ifc.mkSpace "A" "room"
        [ ifc_boundary "w2a" w2 EXTERNAL 5 (5, 1, 1) (1, 0, 0);
          ifc_boundary "w2b" w2 EXTERNAL 7 (5, 3, 1) (1, 0, 0);
          ifc_boundary "h2" h2 EXTERNAL 3 (5, 2, 1) (1, 0, 0);
          ifc_boundary "f" f EXTERNAL 20 (2, 2, 0) (0, 0, 1);
          ifc_boundary "c" c EXTERNAL 20 (2, 2, 3) (0, 0, 1);
          ifc_boundary "f2" f EXTERNAL 20 (9, 9, 0) (0, 0, 1) ] ].

(** A room of exactly five boundaries, two of them in one plane.  The room
    is the group 4, its boundaries are 5 to 9. *)
Definition five_boundaries : Ifc.File Z :=
  let w1 := wall "W1" in
  let w2 := wall "W2" in
  let f := wall "F" in
  let c := wall "C" in
  Ifc.mkFile [w1; w2; f; c]
    [ Ifc.mkSpace "A" "room"
        [ ifc_boundary "w2a" w2 EXTERNAL 5 (5, 1, 1) (1, 0, 0);
          ifc_boundary "w2b" w2 EXTERNAL 7 (5, 3, 1) (1, 0, 0);
          ifc_boundary "w1" w1 EXTERNAL 12 (1, 0, 1) (0, 1, 0);
          ifc_boundary "f" f EXTERNAL 20 (2, 2, 0) (0, 0, 1);
          ifc_boundary "c" c EXTERNAL 20 (2, 2, 3) (0, 0, 1) ] ].

(** A room of three boundaries.  The room is the group 3. *)
Definition three_boundaries : Ifc.File Z :=
  let w1 := wall "W1" in
  let f := wall "F" in
  let c := wall "C" in
  Ifc.mkFile [w1; f; c]
    [ Ifc.mkSpace "A" "room"
        [ ifc_boundary "w1" w1 EXTERNAL 12 (1, 0, 1) (0, 1, 0);
          ifc_boundary "f" f EXTERNAL 20 (2, 2, 0) (0, 0, 1);
          ifc_boundary "c" c EXTERNAL 20 (2, 2, 3) (0, 0, 1) ] ].

(** A room whose first boundary has a surface ifcopenshell fails on.  The
    room is the group 2. *)
Definition broken_surface : Ifc.File Z :=
  let w1 := wall "W1" in
  let f := wall "F" in
  Ifc.mkFile [w1; f]
    [ Ifc.mkSpace "A" "room"
        [ ifc_boundary "w1" w1 EXTERNAL 0 (1, 0, 1) (0, 1, 0);
          ifc_boundary "f" f EXTERNAL 20 (2, 2, 0) (0, 0, 1) ] ].

(** One wall between a room and two others that lie far away along it.
    Objects as in [three_rooms]. *)
Definition far_rooms : Ifc.File Z :=
  let w := wall "W" in
  Ifc.mkFile [w]
    [ Ifc.mkSpace "A" "room"
        [ifc_boundary "a" w INTERNAL 12 (0, 0, 0) (0, 1, 0)];
      Ifc.mkSpace "B" "room"
        [ifc_boundary "b" w INTERNAL 6 (20, 0, 0) (0, 1, 0)];
      Ifc.mkSpace "C" "room"
        [ifc_boundary "c" w INTERNAL 6 (30, 0, 0) (0, 1, 0)] ].

(** Two rooms on the two sides of a partition, the first with six
    boundaries of which two lie in one plane.  Objects: the elements are 0
    to 3, the first room is the group 4 with the boundaries 5 to 10 (5 on
    the partition, 6 and 7 in one plane), the second the group 11 with the
    boundary 12. *)
Definition two_rooms : Ifc.File Z :=
  let p := wall "P" in
  let w2 := wall "W2" in
  let f := wall "F" in
  let c := wall "C" in
  Ifc.mkFile [p; w2; f; c]
    [ Ifc.mkSpace "A" "room"
        [ ifc_boundary "pa" p INTERNAL 12 (1, 0, 1) (0, 1, 0);
          ifc_boundary "w2a" w2 EXTERNAL 5 (5, 1, 1) (1, 0, 0);
          ifc_boundary "w2b" w2 EXTERNAL 7 (5, 3, 1) (1, 0, 0);
          ifc_boundary "f" f EXTERNAL 20 (2, 2, 0) (0, 0, 1);
          ifc_boundary "c" c EXTERNAL 20 (2, 2, 3) (0, 0, 1);
          ifc_boundary "w3" w2 EXTERNAL 9 (0, 2, 1) (1, 0, 0) ];
      Ifc.mkSpace "B" "room"
        [ ifc_boundary "pb" p INTERNAL 12 (1, -1, 1) (0, 1, 0) ] ].

(** A surface basis: reference direction along x, axis along z. *)
Definition upright : Ifc.Position Z :=
  Ifc.mkPosition (mkVector 1 2 3) (mkVector 1 0 0) (mkVector 0 0 1).

(** The document once the elements and the boundaries of a file are
    generated. *)
Definition generated (ifc_file : Ifc.File Z) : Document Z :=
  document_of
    ((generate_elements ifc_file ;; generate_boundaries ifc_file) new_document).

End Example.

(** ** Vocabulary of the properties *)

Section Vocabulary.
Context {F : Type} `{FloatOps F}.

(** The area of a boundary plus the areas of the boundaries it hosts, added
    one after the other in the order of the list. *)
Definition Area_plus_hosted (doc : Document F) (B : nat) : F :=
  fold_left fadd
    (map (fun h => Area (boundary doc h)) (InnerBoundaries (boundary doc B)))
    (Area (boundary doc B)).

(** [AreaWithHosted] is up to date everywhere. *)
Definition areas_consistent (doc : Document F) : Prop :=
  forall B, AreaWithHosted (boundary doc B) = Area_plus_hosted doc B.

(** The candidate lies 10000 or further from the boundary, centre of mass to
    centre of mass: the test [distance < min_lenght] of the script answers
    no for the initial [min_lenght]. *)
Definition far (doc : Document F) (fc_boundary candidate : nat) : Prop :=
  fltb (distanceToPoint (Part.CenterOfMass (Shape (boundary doc fc_boundary)))
                        (Part.CenterOfMass (Shape (boundary doc candidate))))
       (of_int 10000) = false.

(** Every execution of [c] ends, by a return or by an exception, in a
    document related by [R] to the one it started in. *)
Definition within (R : Document F -> Document F -> Prop) {A : Type}
  (c : M F A) : Prop :=
  forall doc, R doc (document_of (c doc)).

(** Two documents with the same groups and elements whose boundaries are
    related one by one. *)
Definition related (P : FcBoundary F -> FcBoundary F -> Prop)
  (doc doc' : Document F) : Prop :=
  (forall b, P (boundary doc b) (boundary doc' b)) /\
  space_group doc = space_group doc' /\
  group_2nd doc = group_2nd doc' /\
  element doc = element doc'.

(** Relations between the properties of a boundary before and after. *)
Definition same_topology (r r' : FcBoundary F) : Prop :=
  CoplanarWith r = CoplanarWith r' /\
  ParentBoundary r = ParentBoundary r' /\
  InnerBoundaries r = InnerBoundaries r'.

Definition same_CorrespondingBoundary (r r' : FcBoundary F) : Prop :=
  CorrespondingBoundary r = CorrespondingBoundary r'.

Definition CoplanarWith_grows (r r' : FcBoundary F) : Prop :=
  (forall x, In x (CoplanarWith r) -> In x (CoplanarWith r')) /\
  Shape r = Shape r'.

Definition same_areas (r r' : FcBoundary F) : Prop :=
  Area r = Area r' /\ AreaWithHosted r = AreaWithHosted r' /\
  InnerBoundaries r = InnerBoundaries r'.

(** The areas are kept, and so is the consistency of [AreaWithHosted]. *)
Definition keeps_areas_consistent (doc doc' : Document F) : Prop :=
  (forall b, Area (boundary doc b) = Area (boundary doc' b)) /\
  (areas_consistent doc -> areas_consistent doc').

End Vocabulary.

(** ** The other functions of the script *)

(** *** [verts_clean]

    The function is written for lists of [FreeCAD.Vector]; it only compares
    its items with [!=], here [ne]. *)

Section VertsClean.
Context {A : Type}.
Variable ne : A -> A -> bool.

(** [for i in range(len(vertices) - 1)], turn by turn; an index out of
    range would raise. *)
Fixpoint verts_clean_loop (vertices : list A) (range : list nat)
  (new_verts : list A) : exn + list A :=
  match range with
  | [] => inr new_verts
  | i :: range' =>
      match nth_error vertices i, nth_error vertices (i + 1) with
      | Some a, Some b =>
          verts_clean_loop vertices range'
            (if ne a b then new_verts ++ [a] else new_verts)
      | _, _ => inl IndexError
      end
  end.

Definition verts_clean (vertices : list A) : exn + list A :=
  match
    verts_clean_loop vertices (seq 0 (List.length vertices - 1)) []
  with
  | inl e => inl e
  | inr new_verts =>
      (* [vertices[-1]] *)
      match nth_error vertices (List.length vertices - 1) with
      | Some last => inr (new_verts ++ [last])
      | None => inl IndexError
      end
  end.

(** The items that differ from the item that follows them. *)
Fixpoint differ_from_next (l : list A) : list A :=
  match l with
  | a :: (b :: _) as l' =>
      if ne a b then a :: differ_from_next l' else differ_from_next l'
  | _ => []
  end.

(** No item of the list is followed by an item it does not differ from. *)
Fixpoint clean (l : list A) : Prop :=
  match l with
  | a :: (b :: _) as l' => ne a b = true /\ clean l'
  | _ => True
  end.

End VertsClean.

(** *** [get_placement], after the call of ifcopenshell

    [ios_matrix] stands for [space_geom.transformation.matrix.data]. *)

Section GetPlacement.
Context {F : Type} `{FloatOps F}.

(** [l[start::step]], for a step that is not 0: [wait] items are passed
    over before the next one is taken. *)
Fixpoint extended_slice {A : Type} (step wait : nat) (l : list A) : list A :=
  match l with
  | [] => []
  | a :: l' =>
      match wait with
      | O => a :: extended_slice step (step - 1) l'
      | S wait' => extended_slice step wait' l'
      end
  end.

(** [line[-1] *= SCALE] *)
Fixpoint scale_last (line : list F) : exn + list F :=
  match line with
  | [] => inl IndexError
  | [a] => inr [fmul a (of_int SCALE)]
  | a :: line' =>
      match scale_last line' with
      | inl e => inl e
      | inr r => inr (a :: r)
      end
  end.

(** [for i in range(3)]: the lines are added to [m_l] one after the
    other. *)
Fixpoint placement_lines (ios_matrix : list F) (range : list nat)
  (m_l : list F) : exn + list F :=
  match range with
  | [] => inr m_l
  | i :: range' =>
      match scale_last (extended_slice 3 i ios_matrix) with
      | inl e => inl e
      | inr line => placement_lines ios_matrix range' (m_l ++ line)
      end
  end.

(** [FreeCAD.Matrix] called with the items of [args]: up to sixteen
    numbers, row by row; the numbers that are not given are those of the
    identity.  More than sixteen are refused; the exception FreeCAD raises
    then is not in the script, it stands here as [TypeError], and no
    property below rests on it. *)
Definition FreeCAD_Matrix (args : list F) : exn + Matrix F :=
  if Nat.ltb 16 (List.length args) then inl TypeError
  else
    let identity :=
      map of_int [1; 0; 0; 0;  0; 1; 0; 0;  0; 0; 1; 0;  0; 0; 0; 1]%Z in
    let a := fun i => nth i (args ++ skipn (List.length args) identity)
                          (of_int 0) in
    inr (mkMatrix (a 0) (a 1) (a 2) (a 3) (a 4) (a 5) (a 6) (a 7)
                  (a 8) (a 9) (a 10) (a 11) (a 12) (a 13) (a 14) (a 15)).

Definition get_placement_of (ios_matrix : list F) : exn + Matrix F :=
  match placement_lines ios_matrix (seq 0 3) [] with
  | inl e => inl e
  | inr m_l => FreeCAD_Matrix m_l
  end.

(** The twelve numbers ifcopenshell gives for a frame: its three axes and
    its origin, one after the other. *)
Definition frame_data (v_1 v_2 v_3 origin : Vector F) : list F :=
  [vx v_1; vy v_1; vz v_1;  vx v_2; vy v_2; vz v_2;
   vx v_3; vy v_3; vz v_3;  vx origin; vy origin; vz origin].

End GetPlacement.

(** *** [get_wall_thickness] *)

Module Material.

(** What [association.RelatingMaterial] can be: an
    [IfcMaterialLayerSetUsage], given by the [LayerThickness] of the layers
    of its [ForLayerSet], or a material without [ForLayerSet]. *)
Inductive Select (F : Type) : Type :=
  | LayerSetUsage (MaterialLayers : list F)
  | Other.
Arguments Other {F}.

(** An item of [ifc_wall.HasAssociations]. *)
Inductive Association (F : Type) : Type :=
  | RelAssociatesMaterial (RelatingMaterial : Select F)
  | RelAssociates.
Arguments RelAssociates {F}.

End Material.

Section WallThickness.
Context {F : Type} `{FloatOps F}.

(** The loops of [get_wall_thickness], from a running [wall_thickness]. *)
Fixpoint add_thicknesses (HasAssociations : list (Material.Association F))
  (wall_thickness : F) : exn + F :=
  match HasAssociations with
  | [] => inr wall_thickness
  | Material.RelAssociates :: rest => add_thicknesses rest wall_thickness
  | Material.RelAssociatesMaterial Material.Other :: _ => inl AttributeError
  | Material.RelAssociatesMaterial (Material.LayerSetUsage layers) :: rest =>
      add_thicknesses rest (fold_left fadd layers wall_thickness)
  end.

Definition get_wall_thickness (HasAssociations : list (Material.Association F))
  : exn + F :=
  add_thicknesses HasAssociations (of_int 0).

(** The layers of the associations, in the order the loops meet them. *)
Fixpoint all_layers (HasAssociations : list (Material.Association F)) : list F :=
  match HasAssociations with
  | [] => []
  | Material.RelAssociatesMaterial (Material.LayerSetUsage layers) :: rest =>
      layers ++ all_layers rest
  | _ :: rest => all_layers rest
  end.

Definition is_layered (a : Material.Association F) : Prop :=
  match a with
  | Material.RelAssociatesMaterial Material.Other => False
  | _ => True
  end.

End WallThickness.

(** *** Vocabulary of the properties of a run *)

Section RunVocabulary.
Context {F : Type} `{FloatOps F}.

(** The matcher has nothing to do for the boundary. *)
Definition settled (doc : Document F) (b : nat) : Prop :=
  InternalOrExternalBoundary (boundary doc b) <> INTERNAL \/
  CorrespondingBoundary (boundary doc b) <> None.

(** The boundaries of the spaces of the document. *)
Definition in_a_space (doc : Document F) (b : nat) : Prop :=
  exists g, In g (group_2nd doc) /\ In b (Group (space_group doc g)).

(** [CoplanarWith] is symmetric. *)
Definition CoplanarWith_symmetric (doc : Document F) : Prop :=
  forall a b,
    In b (CoplanarWith (boundary doc a)) ->
    In a (CoplanarWith (boundary doc b)).

(** The boundaries hosted by a boundary are objects of the document. *)
Definition hosted_exist (doc : Document F) : Prop :=
  forall b h, In h (InnerBoundaries (boundary doc b)) -> h < next_object doc.

(** The distance between the centres of mass of two boundaries. *)
Definition distance_between (doc : Document F) (a b : nat) : F :=
  distanceToPoint (Part.CenterOfMass (Shape (boundary doc a)))
                  (Part.CenterOfMass (Shape (boundary doc b))).

(** The matcher never undoes a pair and never changes a classification. *)
Definition settles (r r' : FcBoundary F) : Prop :=
  InternalOrExternalBoundary r = InternalOrExternalBoundary r' /\
  (CorrespondingBoundary r <> None -> CorrespondingBoundary r' <> None).

Definition same_CoplanarWith (r r' : FcBoundary F) : Prop :=
  CoplanarWith r = CoplanarWith r' /\ Shape r = Shape r'.

Definition keeps_symmetric (doc doc' : Document F) : Prop :=
  CoplanarWith_symmetric doc -> CoplanarWith_symmetric doc'.

(** No boundary has a coplanar boundary registered. *)
Definition CoplanarWith_empty (doc : Document F) : Prop :=
  forall b, CoplanarWith (boundary doc b) = [].

Definition keeps_CoplanarWith_empty (doc doc' : Document F) : Prop :=
  CoplanarWith_empty doc -> CoplanarWith_empty doc'.

(** What a run keeps from its first object to its last. *)
Definition run_invariant (doc : Document F) : Prop :=
  hosted_exist doc /\ areas_consistent doc.

Definition keeps_run_invariant (doc doc' : Document F) : Prop :=
  run_invariant doc -> run_invariant doc'.

(** The exceptions of [c] are among [E]. *)
Definition raises_only (E : exn -> Prop) {A : Type} (c : M F A) : Prop :=
  forall doc e doc', c doc = Raise e doc' -> E e.

End RunVocabulary.

(** * Properties *)

(** ** Computations *)

Section Computations.
Context {F : Type}.

Lemma document_of_bind {A B : Type} (c : M F A) (k : A -> M F B) doc :
  document_of (bind c k doc) =
  match c doc with
  | Return a doc' => document_of (k a doc')
  | Raise _ doc' => doc'
  end.
Proof. unfold bind. destruct (c doc); reflexivity. Qed.

Lemma bind_Return {A B : Type} (c : M F A) (k : A -> M F B) doc a doc' :
  c doc = Return a doc' -> bind c k doc = k a doc'.
Proof. intros E. unfold bind. rewrite E. reflexivity. Qed.

Lemma bind_Raise {A B : Type} (c : M F A) (k : A -> M F B) doc e doc' :
  c doc = Raise e doc' -> bind c k doc = Raise e doc'.
Proof. intros E. unfold bind. rewrite E. reflexivity. Qed.

End Computations.

(** ** The matrix of a surface basis *)

Section GetMatrixProperties.
Context {F : Type} `{FloatOps F}.

Lemma Vector_eta (v : Vector F) : mkVector (vx v) (vy v) (vz v) = v.
Proof. destruct v; reflexivity. Qed.

(** C9, as the script has it: the columns of the matrix are the reference
    direction, the cross product of the axis by the reference direction (in
    this order), the axis, and the location scaled by [SCALE]; the last row
    is 0, 0, 0, 1. *)
Theorem get_matrix_columns (position : Ifc.Position F) :
  column1 (get_matrix position) = Ifc.RefDirection position /\
  column2 (get_matrix position) =
    cross (Ifc.Axis position) (Ifc.RefDirection position) /\
  column3 (get_matrix position) = Ifc.Axis position /\
  column4 (get_matrix position) =
    scale (Ifc.Location position) SCALE SCALE SCALE /\
  row4 (get_matrix position) = (of_int 0, of_int 0, of_int 0, of_int 1).
Proof.
  unfold get_matrix, column1, column2, column3, column4, row4; cbn.
  repeat split; apply Vector_eta.
Qed.

End GetMatrixProperties.

(** Over the integers, where arithmetic is exact. *)

Lemma cross_opposite (u w : Vector Z) : cross u w = opposite (cross w u).
Proof.
  destruct u, w; unfold cross, opposite; cbn. f_equal; ring.
Qed.

(** The middle column is the opposite of reference x axis. *)
Lemma get_matrix_column2_opposite (position : Ifc.Position Z) :
  column2 (get_matrix position) =
  opposite (cross (Ifc.RefDirection position) (Ifc.Axis position)).
Proof.
  rewrite <- cross_opposite. destruct position as [l r a]. reflexivity.
Qed.

(** With the order the script takes, a unit reference direction orthogonal
    to the axis gives a right-handed frame: first column x second column =
    third column. *)
Lemma get_matrix_right_handed (position : Ifc.Position Z) :
  dot (Ifc.RefDirection position) (Ifc.RefDirection position) = 1%Z ->
  dot (Ifc.RefDirection position) (Ifc.Axis position) = 0%Z ->
  cross (column1 (get_matrix position)) (column2 (get_matrix position)) =
  column3 (get_matrix position).
Proof.
  destruct position as [l [a b c] [d e f]];
    unfold get_matrix, column1, column2, column3, dot, cross; cbn.
  intros U O. f_equal.
  - transitivity (d * (a * a + b * b + c * c) - a * (a * d + b * e + c * f))%Z;
      [ring | rewrite U, O; ring].
  - transitivity (e * (a * a + b * b + c * c) - b * (a * d + b * e + c * f))%Z;
      [ring | rewrite U, O; ring].
  - transitivity (f * (a * a + b * b + c * c) - c * (a * d + b * e + c * f))%Z;
      [ring | rewrite U, O; ring].
Qed.

(** C9, as the claim has it, fails: for the reference direction x and the
    axis z, reference x axis is (0, -1, 0), which is no column of the
    matrix. *)
Lemma get_matrix_no_column_is_reference_cross_axis :
  let m := get_matrix Example.upright in
  let claimed :=
    cross (Ifc.RefDirection Example.upright) (Ifc.Axis Example.upright) in
  claimed = mkVector 0%Z (-1)%Z 0%Z /\
  column1 m <> claimed /\ column2 m <> claimed /\
  column3 m <> claimed /\ column4 m <> claimed.
Proof. cbv. repeat split; discriminate. Qed.

(** ** The corresponding boundary of a boundary without a close candidate *)

Section Unbound.
Context {F : Type} `{FloatOps F}.

(** While no candidate is closer than the initial [min_lenght], the loop
    assigns neither [min_lenght] nor [corresponding_boundary]. *)
Lemma closest_far (doc : Document F) (fc_boundary : nat) (candidates : list nat) :
  Forall (far doc fc_boundary) candidates ->
  closest doc fc_boundary candidates = (of_int 10000, None).
Proof.
  unfold closest. induction 1 as [|c l Hc _ IH]; cbn; [reflexivity|].
  unfold closer at 2; cbn. unfold far in Hc. rewrite Hc. exact IH.
Qed.

(** C10: on an INTERNAL boundary that has no corresponding boundary yet,
    when no candidate remains, or when several remain and each lies 10000
    or further away, [associate_corresponding_boundary] raises
    [UnboundLocalError] and leaves the document as it found it. *)
Theorem associate_corresponding_boundary_unbound (doc : Document F)
  (fc_boundary : nat) (candidates : list nat) :
  InternalOrExternalBoundary (boundary doc fc_boundary) = INTERNAL ->
  CorrespondingBoundary (boundary doc fc_boundary) = None ->
  clean_corresponding_candidates fc_boundary doc = Return candidates doc ->
  candidates = [] \/
  (1 < List.length candidates /\ Forall (far doc fc_boundary) candidates) ->
  associate_corresponding_boundary fc_boundary doc = Raise UnboundLocalError doc.
Proof.
  intros Hkind Hlink Hclean Hcand.
  unfold associate_corresponding_boundary, read_boundary.
  unfold bind at 1. rewrite Hkind, Hlink; cbn.
  unfold bind at 1. rewrite Hclean.
  destruct Hcand as [-> | [Hlen Hfar]].
  - reflexivity.
  - destruct (Nat.eqb_spec (List.length candidates) 1) as [E|_]; [lia|].
    unfold bind at 1. rewrite (closest_far Hfar). reflexivity.
Qed.

End Unbound.

(** The first room of [Example.far_rooms]: the two candidates are 20 m and
    30 m away. *)
Lemma associate_corresponding_boundary_unbound_far_rooms :
  associate_corresponding_boundary 2 (Example.generated Example.far_rooms) =
  Raise UnboundLocalError (Example.generated Example.far_rooms).
Proof.
  apply (@associate_corresponding_boundary_unbound Z _
           (Example.generated Example.far_rooms) 2 [4; 6]).
  - reflexivity.
  - reflexivity.
  - vm_compute. reflexivity.
  - right. split.
    + simpl. lia.
    + repeat constructor.
Defined.

(** ** What a computation keeps

    [within R c] for a reflexive and transitive [R] goes through sequences,
    branches and loops. *)

Section Within.
Context {F : Type}.
Variable R : Document F -> Document F -> Prop.
Hypothesis R_refl : forall doc, R doc doc.
Hypothesis R_trans : forall d1 d2 d3, R d1 d2 -> R d2 d3 -> R d1 d3.

Lemma within_ret {A : Type} (a : A) : within R (ret a).
Proof. intros doc. apply R_refl. Qed.

Lemma within_raise {A : Type} (e : exn) : within R (@raise F A e).
Proof. intros doc. apply R_refl. Qed.

Lemma within_read {A : Type} (f : Document F -> A) :
  within R (fun doc => Return (f doc) doc).
Proof. intros doc. apply R_refl. Qed.

Lemma within_call {A : Type} (r : exn + A) : within R (call r).
Proof. destruct r; [apply within_raise | apply within_ret]. Qed.

Lemma within_index_0 {A : Type} (l : list A) : within R (index_0 l).
Proof. destruct l; [apply within_raise | apply within_ret]. Qed.

Lemma within_read_local {A : Type} (v : option A) : within R (read_local v).
Proof. destruct v; [apply within_ret | apply within_raise]. Qed.

Lemma within_py_assert (cond : bool) : within R (py_assert cond).
Proof. destruct cond; [apply within_ret | apply within_raise]. Qed.

Lemma within_bind {A B : Type} (c : M F A) (k : A -> M F B) :
  within R c -> (forall a, within R (k a)) -> within R (bind c k).
Proof.
  intros Hc Hk doc. rewrite document_of_bind.
  specialize (Hc doc). destruct (c doc) as [a doc'|e doc']; cbn in Hc.
  - eapply R_trans; [exact Hc | apply Hk].
  - exact Hc.
Qed.

Lemma within_for_each {A : Type} (l : list A) (body : A -> M F unit) :
  (forall a, within R (body a)) -> within R (for_each l body).
Proof.
  intros Hbody. induction l as [|a l IH]; cbn.
  - apply within_ret.
  - apply within_bind; [apply Hbody | intros _; exact IH].
Qed.

Lemma within_for_each_with {A V : Type} (l : list A) (body : V -> A -> M F V) :
  (forall v a, within R (body v a)) ->
  forall v, within R (for_each_with l v body).
Proof.
  intros Hbody. induction l as [|a l IH]; intros v; cbn.
  - apply within_ret.
  - apply within_bind; [apply Hbody | intros v'; apply IH].
Qed.

End Within.

Section Related.
Context {F : Type} `{FloatOps F}.
Variable P : FcBoundary F -> FcBoundary F -> Prop.
Hypothesis P_refl : forall r, P r r.
Hypothesis P_trans : forall r1 r2 r3, P r1 r2 -> P r2 r3 -> P r1 r3.

Lemma related_refl (doc : Document F) : related P doc doc.
Proof. repeat split; auto. Qed.

Lemma related_trans (d1 d2 d3 : Document F) :
  related P d1 d2 -> related P d2 d3 -> related P d1 d3.
Proof.
  intros (B1 & S1 & G1 & E1) (B2 & S2 & G2 & E2). repeat split.
  - intros b. eapply P_trans; [apply B1 | apply B2].
  - congruence.
  - congruence.
  - congruence.
Qed.

Lemma update_boundary_related (obj : nat) (f : FcBoundary F -> FcBoundary F)
  (doc : Document F) :
  P (boundary doc obj) (f (boundary doc obj)) ->
  related P doc (document_of (update_boundary obj f doc)).
Proof.
  intros Hf. repeat split; cbn. intros b. unfold store_set.
  destruct (Nat.eqb_spec b obj) as [->|_]; [exact Hf | apply P_refl].
Qed.

Lemma within_update_boundary (obj : nat) (f : FcBoundary F -> FcBoundary F) :
  (forall r, P r (f r)) -> within (related P) (update_boundary obj f).
Proof. intros Hf doc. apply update_boundary_related, Hf. Qed.

Lemma within_onChanged (obj : nat) (prop : string) :
  (forall r v, P r (with_AreaWithHosted v r)) ->
  within (related P) (onChanged obj prop).
Proof.
  intros Hf doc. unfold onChanged.
  destruct (String.eqb prop "InnerBoundaries").
  - apply update_boundary_related, Hf.
  - apply related_refl.
Qed.

Lemma within_assign (obj : nat) (prop : string)
  (f : FcBoundary F -> FcBoundary F) :
  (forall r, P r (f r)) ->
  (forall r v, P r (with_AreaWithHosted v r)) ->
  within (related P) (assign obj prop f).
Proof.
  intros Hf Hv. unfold assign.
  apply within_bind; [apply related_trans | |].
  - apply within_update_boundary, Hf.
  - intros _. apply within_onChanged, Hv.
Qed.

(** An assignment that is no assignment to ["InnerBoundaries"]. *)
Lemma within_assign_other (obj : nat) (prop : string)
  (f : FcBoundary F -> FcBoundary F) :
  String.eqb prop "InnerBoundaries" = false ->
  (forall r, P r (f r)) ->
  within (related P) (assign obj prop f).
Proof.
  intros Hprop Hf. unfold assign.
  apply within_bind; [apply related_trans | |].
  - apply within_update_boundary, Hf.
  - intros _. unfold onChanged. rewrite Hprop.
    apply within_ret, related_refl.
Qed.

End Related.

(** [getattr] and [clean_corresponding_candidates] read the document and
    leave it as it is. *)
Section Reads.
Context {F : Type} `{FloatOps F}.

Lemma getattr_unchanged (o : doc_object) (fc_property : string)
  (doc : Document F) :
  document_of (getattr o fc_property doc) = doc.
Proof.
  unfold getattr. destruct o; cbn;
    repeat match goal with
           | |- context [if ?b then _ else _] => destruct b
           end; reflexivity.
Qed.

Lemma within_getattr (R : Document F -> Document F -> Prop)
  (o : doc_object) (fc_property : string) :
  (forall doc, R doc doc) -> within R (getattr o fc_property).
Proof. intros R_refl doc. rewrite getattr_unchanged. apply R_refl. Qed.

Lemma clean_corresponding_candidates_unchanged (fc_boundary : nat)
  (doc : Document F) :
  document_of (clean_corresponding_candidates fc_boundary doc) = doc.
Proof.
  unfold clean_corresponding_candidates, read_boundary.
  rewrite document_of_bind, document_of_bind.
  pose proof (getattr_unchanged
                (element_object (RelatedBuildingElement (boundary doc fc_boundary)))
                "ProvidesBoundaries" doc) as E.
  destruct (getattr _ _ doc) as [l d|e d]; cbn in E; subst d; [|reflexivity].
  rewrite document_of_bind.
  destruct (remove fc_boundary l); reflexivity.
Qed.

End Reads.

(** Case analysis on whether the object [b] read from a store is the
    object [B] that was assigned. *)
Ltac store_cases b B :=
  cbn; unfold store_set; cbn; rewrite ?Nat.eqb_refl; cbn;
  destruct (Nat.eqb_spec b B) as [->|?];
    [ rewrite ?Nat.eqb_refl
    | match goal with
      | Hn : b <> B |- _ =>
          rewrite ?(proj2 (Nat.eqb_neq B b) (not_eq_sym Hn))
      end ];
    cbn.

(** ** Areas *)

Section Areas.
Context {F : Type} `{FloatOps F}.

Lemma fold_left_map {A B C : Type} (f : A -> C -> A) (g : B -> C)
  (l : list B) (a : A) :
  fold_left f (map g l) a = fold_left (fun x b => f x (g b)) l a.
Proof. revert a. induction l as [|b l IH]; intros a; cbn; auto. Qed.

(** What [recompute_area_with_hosted] answers. *)
Lemma recompute_area_with_hosted_eq (doc : Document F) (B : nat) :
  recompute_area_with_hosted doc B = Area_plus_hosted doc B.
Proof.
  unfold recompute_area_with_hosted, Area_plus_hosted.
  symmetry. apply fold_left_map.
Qed.

Lemma Area_plus_hosted_ext (d d' : Document F) (B : nat) :
  (forall b, Area (boundary d b) = Area (boundary d' b)) ->
  InnerBoundaries (boundary d B) = InnerBoundaries (boundary d' B) ->
  Area_plus_hosted d B = Area_plus_hosted d' B.
Proof.
  intros HA HI. unfold Area_plus_hosted. rewrite HI, HA. f_equal.
  apply map_ext. intros h. apply HA.
Qed.

(** An assignment to [InnerBoundaries], step by step. *)
Lemma setattr_InnerBoundaries_eq (doc : Document F) (B : nat) (value : list nat) :
  setattr (BoundaryObject B) "InnerBoundaries" value doc =
  let doc1 :=
    document_of (update_boundary B (with_InnerBoundaries value) doc) in
  update_boundary B
    (with_AreaWithHosted (recompute_area_with_hosted doc1 B)) doc1.
Proof. reflexivity. Qed.

Lemma setattr_InnerBoundaries_Area (doc : Document F) (B : nat)
  (value : list nat) (b : nat) :
  Area (boundary
          (document_of (setattr (BoundaryObject B) "InnerBoundaries" value doc))
          b) =
  Area (boundary doc b).
Proof.
  rewrite setattr_InnerBoundaries_eq. store_cases b B; reflexivity.
Qed.

(** C4: an assignment to the [InnerBoundaries] of a boundary [B] returns
    with [B.AreaWithHosted] recomputed: it is [B.Area] plus the areas of the
    boundaries now in [B.InnerBoundaries], whatever it was before. *)
Theorem InnerBoundaries_assignment_recomputes_area (doc : Document F) (B : nat)
  (value : list nat) :
  exists doc',
    setattr (BoundaryObject B) "InnerBoundaries" value doc = Return tt doc' /\
    InnerBoundaries (boundary doc' B) = value /\
    AreaWithHosted (boundary doc' B) = Area_plus_hosted doc' B.
Proof.
  eexists. split; [reflexivity|].
  cbn. unfold store_set. rewrite Nat.eqb_refl. cbn. split; [reflexivity|].
  rewrite recompute_area_with_hosted_eq.
  apply Area_plus_hosted_ext.
  - intros b. store_cases b B; reflexivity.
  - cbn. unfold store_set. rewrite Nat.eqb_refl. reflexivity.
Qed.

(** The script assigns [InnerBoundaries] through [append]. *)
Lemma append_InnerBoundaries_eq (doc : Document F) (host boundary_ : nat) :
  append (BoundaryObject host) "InnerBoundaries" boundary_ doc =
  setattr (BoundaryObject host) "InnerBoundaries"
    (InnerBoundaries (boundary doc host) ++ [boundary_]) doc.
Proof. reflexivity. Qed.

Lemma append_InnerBoundaries_recomputes_area (doc : Document F)
  (host boundary_ : nat) :
  exists doc',
    append (BoundaryObject host) "InnerBoundaries" boundary_ doc = Return tt doc' /\
    InnerBoundaries (boundary doc' host) =
      InnerBoundaries (boundary doc host) ++ [boundary_] /\
    AreaWithHosted (boundary doc' host) = Area_plus_hosted doc' host.
Proof.
  rewrite append_InnerBoundaries_eq.
  eexists. split; [reflexivity|].
  cbn. unfold store_set. rewrite Nat.eqb_refl. cbn. split; [reflexivity|].
  rewrite recompute_area_with_hosted_eq.
  apply Area_plus_hosted_ext.
  - intros b. store_cases b host; reflexivity.
  - cbn. unfold store_set. rewrite Nat.eqb_refl. reflexivity.
Qed.

End Areas.

Section RelatedAppend.
Context {F : Type} `{FloatOps F}.
Variable P : FcBoundary F -> FcBoundary F -> Prop.
Hypothesis P_refl : forall r, P r r.
Hypothesis P_trans : forall r1 r2 r3, P r1 r2 -> P r2 r3 -> P r1 r3.
Hypothesis P_InnerBoundaries : forall r v, P r (with_InnerBoundaries v r).
Hypothesis P_CoplanarWith : forall r v, P r (with_CoplanarWith v r).
Hypothesis P_AreaWithHosted : forall r v, P r (with_AreaWithHosted v r).

Lemma within_setattr_boundary (b : nat) (fc_property : string)
  (value : list nat) :
  within (related P) (setattr (BoundaryObject b) fc_property value).
Proof.
  unfold setattr.
  destruct (String.eqb fc_property "InnerBoundaries");
    [|destruct (String.eqb fc_property "CoplanarWith")].
  - apply within_assign; auto.
  - apply within_assign; auto.
  - apply within_raise, related_refl, P_refl.
Qed.

Lemma within_append_boundary (b : nat) (fc_property : string) (value : nat) :
  within (related P) (append (BoundaryObject b) fc_property value).
Proof.
  unfold append. apply within_bind.
  - apply related_trans, P_trans.
  - apply within_getattr, related_refl, P_refl.
  - intros l. apply within_setattr_boundary.
Qed.

End RelatedAppend.

(** ** What the two passes keep

    A relation that every assignment of a pass keeps is kept by the pass. *)

Section Matcher.
Context {F : Type} `{FloatOps F}.
Variable R : Document F -> Document F -> Prop.
Hypothesis R_refl : forall doc, R doc doc.
Hypothesis R_trans : forall d1 d2 d3, R d1 d2 -> R d2 d3 -> R d1 d3.
Hypothesis R_CorrespondingBoundary : forall obj v,
  within R (assign obj "CorrespondingBoundary" (with_CorrespondingBoundary v)).

Lemma within_associate_corresponding_boundary (fc_boundary : nat) :
  within R (associate_corresponding_boundary fc_boundary).
Proof.
  unfold associate_corresponding_boundary, read_boundary.
  apply within_bind; [exact R_trans | apply within_read, R_refl | intros this].
  destruct (_ || _); [apply within_ret, R_refl|].
  apply within_bind; [exact R_trans | | intros candidates].
  { intros doc. rewrite clean_corresponding_candidates_unchanged.
    apply R_refl. }
  apply within_bind; [exact R_trans | | intros local].
  { destruct (Nat.eqb _ 1).
    - apply within_bind;
        [exact R_trans | apply within_index_0, R_refl | intros first].
      apply within_ret, R_refl.
    - apply within_read, R_refl. }
  apply within_bind; [exact R_trans | apply within_read_local, R_refl | intros c].
  apply within_bind; [exact R_trans | | intros _];
    apply R_CorrespondingBoundary.
Qed.

Lemma within_associate_corresponding_boundaries :
  within R associate_corresponding_boundaries.
Proof.
  unfold associate_corresponding_boundaries.
  apply within_bind; [exact R_trans | apply within_read, R_refl | intros groups].
  apply within_for_each; [exact R_refl | exact R_trans | intros g].
  unfold associate_boundaries_of.
  apply within_bind; [exact R_trans | apply within_read, R_refl | intros l].
  apply within_for_each; [exact R_refl | exact R_trans | intros b].
  apply within_associate_corresponding_boundary.
Qed.

End Matcher.

Section Hosted.
Context {F : Type} `{FloatOps F} `{Kernel F}.
Variable R : Document F -> Document F -> Prop.
Hypothesis R_refl : forall doc, R doc doc.
Hypothesis R_trans : forall d1 d2 d3, R d1 d2 -> R d2 d3 -> R d1 d3.
Hypothesis R_CoplanarWith : forall obj v,
  within R (append (BoundaryObject obj) "CoplanarWith" v).
Hypothesis R_ParentBoundary : forall obj v,
  within R (assign obj "ParentBoundary" (with_ParentBoundary v)).
Hypothesis R_InnerBoundaries : forall obj v,
  within R (append (BoundaryObject obj) "InnerBoundaries" v).

Lemma within_find_coplanar (fc_boundaries : list nat) :
  within R (find_coplanar fc_boundaries).
Proof.
  unfold find_coplanar. apply within_for_each; [exact R_refl | exact R_trans |].
  intros [b1 b2]. unfold register_coplanar, read_boundary.
  apply within_bind; [exact R_trans | apply within_read, R_refl | intros s1].
  apply within_bind; [exact R_trans | apply within_read, R_refl | intros s2].
  destruct (is_coplanar s1 s2); [|apply within_ret, R_refl].
  apply within_bind; [exact R_trans | | intros _]; apply R_CoplanarWith.
Qed.

Lemma within_associate_hosted (host_element : option nat) (fc_boundary : nat) :
  within R (associate_hosted host_element fc_boundary).
Proof.
  unfold associate_hosted, read_boundary.
  apply within_bind; [exact R_trans | apply within_read, R_refl | intros this].
  destruct (IsHosted this).
  2:{ apply within_bind;
        [exact R_trans | apply within_read, R_refl | intros others].
      destruct (negb _); [apply within_ret, R_refl|].
      destruct (Nat.eqb _ 1); apply within_ret, R_refl. }
  apply within_bind; [exact R_trans | | intros v'].
  { destruct (Nat.eqb _ 1); [|apply within_ret, R_refl].
    apply within_bind;
      [exact R_trans | apply within_index_0, R_refl | intros first].
    apply within_bind;
      [exact R_trans | apply R_ParentBoundary
      | intros _; apply within_ret, R_refl]. }
  apply within_bind;
    [exact R_trans | apply within_read_local, R_refl | intros host'].
  apply within_bind;
    [exact R_trans | apply R_InnerBoundaries
    | intros _; apply within_ret, R_refl].
Qed.

Lemma within_associate_hosted_elements_of (host_element : option nat)
  (space_group_ : nat) :
  within R (associate_hosted_elements_of host_element space_group_).
Proof.
  unfold associate_hosted_elements_of.
  apply within_bind; [exact R_trans | apply within_read, R_refl | intros l].
  destruct (Nat.eqb _ 5); [apply within_ret, R_refl|].
  apply within_bind; [exact R_trans | | intros _].
  { destruct (Nat.ltb _ 5);
      [apply within_py_assert, R_refl | apply within_ret, R_refl]. }
  apply within_bind; [exact R_trans | apply within_find_coplanar | intros _].
  apply within_for_each_with; [exact R_refl | exact R_trans | intros v b].
  apply within_associate_hosted.
Qed.

Lemma within_associate_hosted_elements : within R associate_hosted_elements.
Proof.
  unfold associate_hosted_elements.
  apply within_bind; [exact R_trans | apply within_read, R_refl | intros groups].
  apply within_bind;
    [exact R_trans | | intros _; apply within_ret, R_refl].
  apply within_for_each_with; [exact R_refl | exact R_trans | intros host g].
  apply within_associate_hosted_elements_of.
Qed.

End Hosted.

(** ** The order of the passes *)

Section Passes.
Context {F : Type} `{FloatOps F} `{Kernel F}.

Lemma same_topology_refl (r : FcBoundary F) : same_topology r r.
Proof. repeat split. Qed.

Lemma same_topology_trans (r1 r2 r3 : FcBoundary F) :
  same_topology r1 r2 -> same_topology r2 r3 -> same_topology r1 r3.
Proof. unfold same_topology. intuition congruence. Qed.

Lemma same_CorrespondingBoundary_refl (r : FcBoundary F) :
  same_CorrespondingBoundary r r.
Proof. reflexivity. Qed.

Lemma same_CorrespondingBoundary_trans (r1 r2 r3 : FcBoundary F) :
  same_CorrespondingBoundary r1 r2 -> same_CorrespondingBoundary r2 r3 ->
  same_CorrespondingBoundary r1 r3.
Proof. unfold same_CorrespondingBoundary. congruence. Qed.

(** The matcher assigns [CorrespondingBoundary] and nothing else. *)
Lemma associate_corresponding_boundaries_same_topology :
  within (related same_topology) (associate_corresponding_boundaries (F := F)).
Proof.
  apply within_associate_corresponding_boundaries.
  - apply related_refl, same_topology_refl.
  - apply related_trans, same_topology_trans.
  - intros obj v.
    apply (@within_assign_other _ _ same_topology same_topology_refl
             same_topology_trans);
      [reflexivity | intros r; unfold same_topology; cbn; auto].
Qed.

(** The pass over the hosted elements assigns no [CorrespondingBoundary]. *)
Lemma append_same_CorrespondingBoundary (b : nat) (fc_property : string)
  (value : nat) :
  within (related same_CorrespondingBoundary)
         (append (F := F) (BoundaryObject b) fc_property value).
Proof.
  apply (@within_append_boundary _ _ same_CorrespondingBoundary
           same_CorrespondingBoundary_refl same_CorrespondingBoundary_trans);
    reflexivity.
Qed.

Lemma associate_hosted_elements_same_CorrespondingBoundary :
  within (related same_CorrespondingBoundary) (associate_hosted_elements (F := F)).
Proof.
  apply within_associate_hosted_elements.
  - apply related_refl, same_CorrespondingBoundary_refl.
  - apply related_trans, same_CorrespondingBoundary_trans.
  - intros obj v. apply append_same_CorrespondingBoundary.
  - intros obj v.
    apply (@within_assign_other _ _ same_CorrespondingBoundary
             same_CorrespondingBoundary_refl same_CorrespondingBoundary_trans);
      [reflexivity | intros r; reflexivity].
  - intros obj v. apply append_same_CorrespondingBoundary.
Qed.

End Passes.

Section Order.
Context {F : Type} `{FloatOps F} `{Kernel F}.


End Order.


(** ** Coplanar boundaries *)

Lemma combinations_In {A : Type} (l : list A) (i j : nat) (a b : A) :
  nth_error l i = Some a -> nth_error l j = Some b -> i < j ->
  In (a, b) (combinations l).
Proof.
  revert i j. induction l as [|x l IH]; intros i j Hi Hj Hlt.
  - destruct i; discriminate.
  - destruct j as [|j]; [lia|]. cbn in Hj. cbn. apply in_or_app.
    destruct i as [|i]; cbn in Hi.
    + left. injection Hi as ->. apply in_map. eapply nth_error_In, Hj.
    + right. apply (IH i j); auto. lia.
Qed.

Section Coplanar.
Context {F : Type} `{FloatOps F} `{Kernel F}.

Lemma CoplanarWith_grows_refl (r : FcBoundary F) : CoplanarWith_grows r r.
Proof. split; auto. Qed.

Lemma CoplanarWith_grows_trans (r1 r2 r3 : FcBoundary F) :
  CoplanarWith_grows r1 r2 -> CoplanarWith_grows r2 r3 ->
  CoplanarWith_grows r1 r3.
Proof. intros [G1 S1] [G2 S2]. split; [auto | congruence]. Qed.

Lemma grows_refl (doc : Document F) : related CoplanarWith_grows doc doc.
Proof. apply related_refl, CoplanarWith_grows_refl. Qed.

Lemma grows_trans (d1 d2 d3 : Document F) :
  related CoplanarWith_grows d1 d2 -> related CoplanarWith_grows d2 d3 ->
  related CoplanarWith_grows d1 d3.
Proof. apply related_trans, CoplanarWith_grows_trans. Qed.

Lemma is_coplanar_Shape (r1 r2 r1' r2' : FcBoundary F) :
  Shape r1 = Shape r1' -> Shape r2 = Shape r2' ->
  is_coplanar r1 r2 = is_coplanar r1' r2'.
Proof. unfold is_coplanar, get_plane. intros -> ->. reflexivity. Qed.

(** An [append] to [CoplanarWith], as one assignment. *)
Lemma append_CoplanarWith_eq (doc : Document F) (a b : nat) :
  append (BoundaryObject a) "CoplanarWith" b doc =
  update_boundary a
    (with_CoplanarWith (CoplanarWith (boundary doc a) ++ [b])) doc.
Proof. reflexivity. Qed.

Lemma append_CoplanarWith_grows (doc : Document F) (a b : nat) :
  related CoplanarWith_grows doc
    (document_of (append (BoundaryObject a) "CoplanarWith" b doc)).
Proof.
  rewrite append_CoplanarWith_eq.
  apply update_boundary_related; [apply CoplanarWith_grows_refl|].
  split; [|reflexivity]. cbn. intros x Hx. apply in_or_app. auto.
Qed.

Lemma append_CoplanarWith_In (doc : Document F) (a b : nat) :
  In b (CoplanarWith
          (boundary
             (document_of (append (BoundaryObject a) "CoplanarWith" b doc)) a)).
Proof.
  rewrite append_CoplanarWith_eq. cbn. unfold store_set.
  rewrite Nat.eqb_refl. cbn. apply in_or_app. right. left. reflexivity.
Qed.

(** One pair: the step returns, what was registered stays, and the two
    boundaries are registered with each other when their planes are
    coplanar. *)
Lemma register_coplanar_spec (doc : Document F) (a b : nat) :
  exists doc1,
    register_coplanar (a, b) doc = Return tt doc1 /\
    related CoplanarWith_grows doc doc1 /\
    (is_coplanar (boundary doc a) (boundary doc b) = true ->
     In b (CoplanarWith (boundary doc1 a)) /\
     In a (CoplanarWith (boundary doc1 b))).
Proof.
  unfold register_coplanar, read_boundary. unfold bind at 1 2.
  destruct (is_coplanar (boundary doc a) (boundary doc b)).
  - pose proof (append_CoplanarWith_grows doc a b) as G1.
    pose proof (append_CoplanarWith_In doc a b) as I1.
    rewrite append_CoplanarWith_eq in G1, I1.
    unfold bind. rewrite append_CoplanarWith_eq.
    set (doc1 := document_of (update_boundary a _ doc)) in *.
    change (update_boundary a
              (with_CoplanarWith (CoplanarWith (boundary doc a) ++ [b])) doc)
      with (Return (S := Document F) tt doc1).
    pose proof (append_CoplanarWith_grows doc1 b a) as G2.
    pose proof (append_CoplanarWith_In doc1 b a) as I2.
    rewrite append_CoplanarWith_eq in *.
    eexists. split; [reflexivity|]. split.
    + eapply grows_trans; [exact G1 | exact G2].
    + intros _. split; [|exact I2].
      apply (proj1 (proj1 G2 a)). exact I1.
  - exists doc. split; [reflexivity|]. split; [apply grows_refl|discriminate].
Qed.

Lemma find_coplanar_pairs (pairs : list (nat * nat)) (doc : Document F) :
  exists doc1,
    for_each pairs register_coplanar doc = Return tt doc1 /\
    related CoplanarWith_grows doc doc1 /\
    (forall a b, In (a, b) pairs ->
       is_coplanar (boundary doc a) (boundary doc b) = true ->
       In b (CoplanarWith (boundary doc1 a)) /\
       In a (CoplanarWith (boundary doc1 b))).
Proof.
  revert doc. induction pairs as [|[a0 b0] pairs IH]; intros doc.
  - exists doc. split; [reflexivity|]. split; [apply grows_refl|].
    intros a b [].
  - destruct (register_coplanar_spec doc a0 b0) as (d1 & E1 & G1 & R1).
    destruct (IH d1) as (d2 & E2 & G2 & R2).
    exists d2. split; [|split].
    + change (for_each ((a0, b0) :: pairs) register_coplanar doc)
        with (bind (register_coplanar (a0, b0))
                (fun _ => for_each pairs register_coplanar) doc).
      erewrite bind_Return by exact E1. exact E2.
    + eapply grows_trans; eauto.
    + intros a b [E|Hin] Hc.
      * injection E as -> ->. destruct (R1 Hc) as [Ia Ib]. split.
        -- apply (proj1 (proj1 G2 a)), Ia.
        -- apply (proj1 (proj1 G2 b)), Ib.
      * apply R2; [exact Hin|].
        rewrite <- Hc. symmetry. apply is_coplanar_Shape.
        -- apply (proj2 (proj1 G1 a)).
        -- apply (proj2 (proj1 G1 b)).
Qed.

(** The loop over the hosted boundaries removes nothing from
    [CoplanarWith]. *)
Lemma append_InnerBoundaries_grows (host boundary_ : nat) :
  within (related CoplanarWith_grows)
         (append (F := F) (BoundaryObject host) "InnerBoundaries" boundary_).
Proof.
  intros doc. rewrite append_InnerBoundaries_eq, setattr_InnerBoundaries_eq.
  cbv zeta. eapply grows_trans.
  - apply update_boundary_related with (obj := host)
      (f := with_InnerBoundaries (InnerBoundaries (boundary doc host) ++ [boundary_]));
      [apply CoplanarWith_grows_refl | split; auto].
  - apply update_boundary_related;
      [apply CoplanarWith_grows_refl | split; auto].
Qed.

Lemma associate_hosted_grows (host_element : option nat) (fc_boundary : nat) :
  within (related CoplanarWith_grows)
         (associate_hosted (F := F) host_element fc_boundary).
Proof.
  apply within_associate_hosted.
  - exact grows_refl.
  - exact grows_trans.
  - intros obj v.
    apply (@within_assign_other _ _ CoplanarWith_grows
             CoplanarWith_grows_refl CoplanarWith_grows_trans);
      [reflexivity | intros r; split; auto].
  - intros obj v. apply append_InnerBoundaries_grows.
Qed.

(** C5, as the script has it.  In a space that does not have exactly five
    boundaries, two boundaries whose planes are coplanar (the one that comes
    first in the space tested against the other) are each in the
    [CoplanarWith] of the other once the pass is over the space, whether the
    pass then went on or stopped on an exception.  A space of exactly five
    boundaries is skipped: the pass over it returns, [host_element] as it
    was, and the document is as it was, so that nothing is registered in
    any [CoplanarWith]. *)
Theorem coplanar_registered (doc : Document F) (host_element : option nat)
  (space : nat) :
  let doc' :=
    document_of (associate_hosted_elements_of host_element space doc) in
  (List.length (Group (space_group doc space)) <> 5 ->
   forall (A B : nat) (i j : nat),
     nth_error (Group (space_group doc space)) i = Some A ->
     nth_error (Group (space_group doc space)) j = Some B ->
     i < j ->
     is_coplanar (boundary doc A) (boundary doc B) = true ->
     In B (CoplanarWith (boundary doc' A)) /\
     In A (CoplanarWith (boundary doc' B))) /\
  (List.length (Group (space_group doc space)) = 5 ->
   associate_hosted_elements_of host_element space doc
     = Return host_element doc /\
   forall x : nat,
     CoplanarWith (boundary doc' x) = CoplanarWith (boundary doc x)).
Proof.
  intros doc'. subst doc'. split.
  - intros Hlen A B i j Hi Hj Hlt Hc.
    destruct (find_coplanar_pairs
                (combinations (Group (space_group doc space))) doc)
      as (d1 & E1 & G1 & R1).
    assert (Hassert :
      (if Nat.ltb (List.length (Group (space_group doc space))) 5
       then py_assert (bool_of_class ValueError) else ret tt) doc
      = Return tt doc) by (destruct (Nat.ltb _ 5); reflexivity).
    assert (Eq : associate_hosted_elements_of host_element space doc =
                 for_each_with (Group (space_group doc space)) host_element
                   associate_hosted d1).
    { unfold associate_hosted_elements_of. unfold bind at 1.
      destruct (Nat.eqb_spec (List.length (Group (space_group doc space))) 5)
        as [E|_]; [contradiction|].
      erewrite bind_Return by exact Hassert.
      erewrite bind_Return by exact E1. reflexivity. }
    rewrite Eq.
    pose proof (@within_for_each_with F (related CoplanarWith_grows)
                  grows_refl grows_trans nat (option nat)
                  (Group (space_group doc space)) associate_hosted
                  associate_hosted_grows host_element d1) as G2.
    destruct (R1 A B (combinations_In _ Hi Hj Hlt) Hc) as [IA IB].
    split.
    + apply (proj1 (proj1 G2 A)), IA.
    + apply (proj1 (proj1 G2 B)), IB.
  - intros Hlen.
    assert (Eq : associate_hosted_elements_of host_element space doc
                 = Return host_element doc).
    { unfold associate_hosted_elements_of. unfold bind at 1.
      rewrite Hlen. reflexivity. }
    split; [exact Eq|]. intros x. rewrite Eq. reflexivity.
Qed.

End Coplanar.

(** The first room of [Example.two_rooms]: six boundaries, of which 6 and
    7 lie in one plane; and the room of [Example.five_boundaries]. *)
Lemma coplanar_registered_two_rooms :
  (let doc' :=
     document_of
       (associate_hosted_elements_of None 4
          (Example.generated Example.two_rooms)) in
   In 7 (CoplanarWith (boundary doc' 6)) /\
   In 6 (CoplanarWith (boundary doc' 7))) /\
  associate_hosted_elements_of None 4
    (Example.generated Example.five_boundaries)
  = Return None (Example.generated Example.five_boundaries).
Proof.
  split.
  - refine (proj1 (@coplanar_registered Z _ _
                     (Example.generated Example.two_rooms) None 4)
              _ 6 7 1 2 _ _ _ _).
    + vm_compute. discriminate.
    + vm_compute. reflexivity.
    + vm_compute. reflexivity.
    + apply le_n.
    + vm_compute. reflexivity.
  - refine (proj1 (proj2 (@coplanar_registered Z _ _
                            (Example.generated Example.five_boundaries)
                            None 4) _)).
    vm_compute. reflexivity.
Defined.

(** C5, as the claim has it, fails on [Example.five_boundaries]: the
    boundaries 5 and 6 of the room lie in one plane, and neither is in the
    [CoplanarWith] of the other at the end of the run, nor is anything
    else. *)
Lemma five_boundaries_not_registered :
  let doc := Example.generated Example.five_boundaries in
  let final :=
    document_of
      (display_boundaries Example.five_boundaries Example.new_document) in
  Group (space_group doc 4) = [5; 6; 7; 8; 9] /\
  is_coplanar (boundary doc 5) (boundary doc 6) = true /\
  ~ In 6 (CoplanarWith (boundary final 5)) /\
  ~ In 5 (CoplanarWith (boundary final 6)).
Proof. vm_compute. repeat split; auto. Qed.

(** ** A surface no tier makes a shape of *)

Section Tiers.
Context {F : Type} `{FloatOps F} `{Kernel F}.

(** A loop stops on the first turn that raises. *)
Lemma for_each_raises {A : Type} (l : list A) (body : A -> M F unit) (a : A) :
  In a l ->
  (forall doc, exists e doc', body a doc = Raise e doc') ->
  forall doc, exists e doc', for_each l body doc = Raise e doc'.
Proof.
  intros Hin Hraise. induction l as [|x l IH]; [destruct Hin|].
  intros doc. cbn. unfold bind.
  destruct (body x doc) as [[] d|e d] eqn:E.
  - destruct Hin as [->|Hin].
    + destruct (Hraise doc) as (e & d' & E'). congruence.
    + apply IH, Hin.
  - eauto.
Qed.

Lemma create_fc_shape_all_tiers_fail (space_boundary : Ifc.RelSpaceBoundary F)
  (e : exn) (doc : Document F) :
  part_by_wires (Ifc.SurfaceOnRelatingElement space_boundary)
    = inl RuntimeError ->
  _part_by_mesh (Ifc.SurfaceOnRelatingElement space_boundary) = inl e ->
  create_fc_shape space_boundary doc =
  Raise e
    (document_of
       (print (Failed_to_generate_mesh_from (Ifc.GlobalId space_boundary)) doc)).
Proof.
  intros Hwires Hmesh.
  unfold create_fc_shape, create_fc_shape_with, BREP, try_except_RuntimeError.
  rewrite Hwires. cbn. unfold bind. cbn. rewrite Hmesh. reflexivity.
Qed.

Lemma generate_boundary_raises (space_group_ : nat) (space_placement : Matrix F)
  (space_boundary : Ifc.RelSpaceBoundary F) (e : exn) :
  part_by_wires (Ifc.SurfaceOnRelatingElement space_boundary)
    = inl RuntimeError ->
  _part_by_mesh (Ifc.SurfaceOnRelatingElement space_boundary) = inl e ->
  forall doc, exists e' doc',
    generate_boundary space_group_ space_placement space_boundary doc
    = Raise e' doc'.
Proof.
  intros Hwires Hmesh doc.
  unfold generate_boundary, make_relspaceboundary.
  unfold bind at 1 2 3. cbv beta iota.
  rewrite (create_fc_shape_all_tiers_fail _ _ Hwires Hmesh). eauto.
Qed.

(** A loop over two lists, one after the other. *)
Lemma for_each_app {A : Type} (l1 l2 : list A) (body : A -> M F unit)
  (doc : Document F) :
  for_each (l1 ++ l2) body doc =
  (for_each l1 body ;; for_each l2 body) doc.
Proof.
  revert doc. induction l1 as [|a l1 IH]; intros doc; [reflexivity|].
  cbn [app for_each]. unfold bind.
  destruct (body a doc) as [[] d|e d]; [|reflexivity].
  rewrite IH. reflexivity.
Qed.

Lemma group_2nd_newObject_eq (label : string) (doc : Document F) :
  group_2nd_newObject label doc =
  Return (next_object doc) (document_of (group_2nd_newObject label doc)).
Proof. reflexivity. Qed.

(** The turn of a boundary no tier makes a shape of: the object is added,
    the line is printed, and the exception of the last tier is raised. *)
Lemma generate_boundary_all_tiers_fail (space_group_ : nat)
  (space_placement : Matrix F) (space_boundary : Ifc.RelSpaceBoundary F)
  (e : exn) (doc : Document F) :
  part_by_wires (Ifc.SurfaceOnRelatingElement space_boundary)
    = inl RuntimeError ->
  _part_by_mesh (Ifc.SurfaceOnRelatingElement space_boundary) = inl e ->
  generate_boundary space_group_ space_placement space_boundary doc =
  Raise e
    (mkDocument
       (store_set (boundary doc) (next_object doc)
          (new_boundary space_boundary))
       (element doc) (space_group doc) (group_2nd doc) (elements_group doc)
       (S (next_object doc))
       (stdout doc ++
        [Failed_to_generate_mesh_from (Ifc.GlobalId space_boundary)])).
Proof.
  intros Hwires Hmesh.
  unfold generate_boundary. apply bind_Raise.
  unfold make_relspaceboundary. unfold bind at 1. cbv beta iota zeta.
  apply bind_Raise.
  rewrite (create_fc_shape_all_tiers_fail _ _ Hwires Hmesh). reflexivity.
Qed.


End Tiers.



(** ** [AreaWithHosted] through the two passes *)

Section AreasKept.
Context {F : Type} `{FloatOps F} `{Kernel F}.

Lemma within_weaken (R R' : Document F -> Document F -> Prop) {A : Type}
  (c : M F A) :
  (forall d d', R d d' -> R' d d') -> within R c -> within R' c.
Proof. intros HR Hc doc. apply HR, Hc. Qed.

Lemma same_areas_refl (r : FcBoundary F) : same_areas r r.
Proof. repeat split. Qed.

Lemma same_areas_trans (r1 r2 r3 : FcBoundary F) :
  same_areas r1 r2 -> same_areas r2 r3 -> same_areas r1 r3.
Proof. unfold same_areas. intuition congruence. Qed.

Lemma keeps_areas_consistent_refl (doc : Document F) :
  keeps_areas_consistent doc doc.
Proof. split; auto. Qed.

Lemma keeps_areas_consistent_trans (d1 d2 d3 : Document F) :
  keeps_areas_consistent d1 d2 -> keeps_areas_consistent d2 d3 ->
  keeps_areas_consistent d1 d3.
Proof.
  intros [A1 C1] [A2 C2]. split; [|auto].
  intros b. rewrite A1. apply A2.
Qed.

Lemma same_areas_keeps (d d' : Document F) :
  related same_areas d d' -> keeps_areas_consistent d d'.
Proof.
  intros [B _]. split.
  - intros b. apply (B b).
  - intros C b. destruct (B b) as (_ & <- & HI). rewrite C.
    apply Area_plus_hosted_ext; [intros x; apply (B x) | exact HI].
Qed.

Lemma append_InnerBoundaries_keeps (host boundary_ : nat) :
  within keeps_areas_consistent
         (append (F := F) (BoundaryObject host) "InnerBoundaries" boundary_).
Proof.
  intros doc.
  destruct (append_InnerBoundaries_recomputes_area doc host boundary_)
    as (doc' & E & _ & HA).
  assert (HArea : forall b, Area (boundary doc b) = Area (boundary doc' b)).
  { intros b. symmetry.
    pose proof (setattr_InnerBoundaries_Area doc host
                  (InnerBoundaries (boundary doc host) ++ [boundary_]) b) as S.
    rewrite <- append_InnerBoundaries_eq, E in S. exact S. }
  assert (Hother : forall b, b <> host -> boundary doc' b = boundary doc b).
  { intros b Hb.
    rewrite append_InnerBoundaries_eq, setattr_InnerBoundaries_eq in E.
    injection E as <-. store_cases b host; [contradiction | reflexivity]. }
  rewrite E. cbn [document_of]. split; [exact HArea|].
  intros C b. destruct (Nat.eq_dec b host) as [->|Hb]; [exact HA|].
  rewrite (Hother b Hb), C.
  apply Area_plus_hosted_ext; [exact HArea|].
  rewrite (Hother b Hb). reflexivity.
Qed.

(** The matcher and the pass over the hosted elements leave every area as
    it is and every [AreaWithHosted] up to date, if they were. *)
Lemma passes_keep_areas_consistent (doc : Document F) :
  areas_consistent doc ->
  areas_consistent
    (document_of
       ((associate_corresponding_boundaries ;; associate_hosted_elements) doc)).
Proof.
  assert (Hsame : forall obj prop (f : FcBoundary F -> FcBoundary F),
             String.eqb prop "InnerBoundaries" = false ->
             (forall r, same_areas r (f r)) ->
             within keeps_areas_consistent (assign obj prop f)).
  { intros obj prop f Hprop Hf.
    apply within_weaken with (R := related same_areas);
      [exact same_areas_keeps|].
    apply (@within_assign_other _ _ same_areas same_areas_refl
             same_areas_trans); assumption. }
  apply (@within_bind F keeps_areas_consistent keeps_areas_consistent_trans).
  - apply within_associate_corresponding_boundaries.
    + exact keeps_areas_consistent_refl.
    + exact keeps_areas_consistent_trans.
    + intros obj v. apply Hsame; [reflexivity | intros r; repeat split].
  - intros _. apply within_associate_hosted_elements.
    + exact keeps_areas_consistent_refl.
    + exact keeps_areas_consistent_trans.
    + intros obj v doc0. rewrite append_CoplanarWith_eq.
      apply same_areas_keeps, update_boundary_related;
        [exact same_areas_refl | repeat split].
    + intros obj v. apply Hsame; [reflexivity | intros r; repeat split].
    + intros obj v. apply append_InnerBoundaries_keeps.
Qed.

End AreasKept.

(** ** What the passes do right *)

Section Steps.
Context {F : Type} `{FloatOps F} `{Kernel F}.

(** When the matcher returns from a boundary it had to pair, the boundary
    and the candidate it chose point to each other. *)
Lemma associate_corresponding_boundary_links (doc doc' : Document F)
  (fc_boundary : nat) :
  InternalOrExternalBoundary (boundary doc fc_boundary) = INTERNAL ->
  CorrespondingBoundary (boundary doc fc_boundary) = None ->
  associate_corresponding_boundary fc_boundary doc = Return tt doc' ->
  exists c,
    CorrespondingBoundary (boundary doc' fc_boundary) = Some c /\
    CorrespondingBoundary (boundary doc' c) = Some fc_boundary.
Proof.
  intros Hkind Hlink.
  unfold associate_corresponding_boundary, read_boundary.
  unfold bind at 1. rewrite Hkind, Hlink. cbn [negb orb
    InternalOrExternalEnum_eqb bool_of_link].
  unfold bind at 1.
  pose proof (clean_corresponding_candidates_unchanged fc_boundary doc) as U.
  destruct (clean_corresponding_candidates fc_boundary doc) as [l d|e d];
    cbn in U; subst d; [|discriminate].
  unfold bind at 1.
  assert (Hlocal : exists local,
    (if Nat.eqb (List.length l) 1
     then first <- index_0 l ;; ret (Some first)
     else fun doc0 => Return (snd (closest doc0 fc_boundary l)) doc0) doc
    = Return local doc).
  { destruct (Nat.eqb (List.length l) 1) eqn:E1.
    - destruct l; [discriminate E1|]. eexists. reflexivity.
    - eexists. reflexivity. }
  destruct Hlocal as (local & ->).
  destruct local as [c|]; [|discriminate].
  intros E. cbn in E. injection E as <-. exists c.
  split; store_cases fc_boundary c; reflexivity.
Qed.

(** A hosted boundary with exactly one coplanar boundary gets it as its
    parent and is appended to its inner boundaries. *)
Lemma associate_hosted_one_coplanar (doc : Document F)
  (host_element : option nat) (fc_boundary host : nat) :
  IsHosted (boundary doc fc_boundary) = true ->
  CoplanarWith (boundary doc fc_boundary) = [host] ->
  exists doc',
    associate_hosted host_element fc_boundary doc = Return (Some host) doc' /\
    ParentBoundary (boundary doc' fc_boundary) = Some host /\
    InnerBoundaries (boundary doc' host) =
      InnerBoundaries (boundary doc host) ++ [fc_boundary].
Proof.
  intros Hhosted Hcoplanar.
  unfold associate_hosted, read_boundary.
  unfold bind at 1. rewrite Hhosted, Hcoplanar.
  eexists. split; [reflexivity|].
  split; store_cases fc_boundary host; reflexivity.
Qed.

(** With another number of coplanar boundaries, the boundary is appended to
    the inner boundaries of whatever [host_element] holds from an earlier
    turn of the loop, in this space or in a space before. *)
Lemma associate_hosted_stale_host (doc : Document F)
  (fc_boundary stale : nat) :
  IsHosted (boundary doc fc_boundary) = true ->
  List.length (CoplanarWith (boundary doc fc_boundary)) <> 1 ->
  exists doc',
    associate_hosted (Some stale) fc_boundary doc = Return (Some stale) doc' /\
    ParentBoundary (boundary doc' fc_boundary) =
      ParentBoundary (boundary doc fc_boundary) /\
    InnerBoundaries (boundary doc' stale) =
      InnerBoundaries (boundary doc stale) ++ [fc_boundary].
Proof.
  intros Hhosted Hlen.
  unfold associate_hosted, read_boundary.
  unfold bind at 1. rewrite Hhosted.
  destruct (Nat.eqb_spec
              (List.length (CoplanarWith (boundary doc fc_boundary))) 1)
    as [E|_]; [contradiction|].
  eexists. split; [reflexivity|].
  split; store_cases fc_boundary stale; reflexivity.
Qed.

(** And it is an error when [host_element] was never assigned. *)
Lemma associate_hosted_unbound_host (doc : Document F) (fc_boundary : nat) :
  IsHosted (boundary doc fc_boundary) = true ->
  List.length (CoplanarWith (boundary doc fc_boundary)) <> 1 ->
  associate_hosted None fc_boundary doc = Raise UnboundLocalError doc.
Proof.
  intros Hhosted Hlen.
  unfold associate_hosted, read_boundary.
  unfold bind at 1. rewrite Hhosted.
  destruct (Nat.eqb_spec
              (List.length (CoplanarWith (boundary doc fc_boundary))) 1)
    as [E|_]; [contradiction|].
  reflexivity.
Qed.

(** The [assert] on a space of fewer than five boundaries does nothing: the
    pass goes on as for a space of more than five. *)
Lemma few_boundaries_pass (doc : Document F) (host_element : option nat)
  (space : nat) :
  List.length (Group (space_group doc space)) <> 5 ->
  associate_hosted_elements_of host_element space doc =
  (find_coplanar (Group (space_group doc space)) ;;
   for_each_with (Group (space_group doc space)) host_element associate_hosted)
    doc.
Proof.
  intros Hlen. unfold associate_hosted_elements_of. unfold bind at 1.
  destruct (Nat.eqb_spec (List.length (Group (space_group doc space))) 5)
    as [E|_]; [contradiction|].
  unfold bind at 1. destruct (Nat.ltb _ 5); reflexivity.
Qed.

End Steps.

(** ** Runs that go wrong *)

(** C1 on [Example.long_wall].  The boundary 2 is INTERNAL and has no
    corresponding boundary; the candidates the script keeps for it are 3,
    5 and 7, and 3 is a boundary of the same space.  Once 2 and 5 are
    paired, the candidates it keeps for 3 are 5 and 7, and 5 is paired. *)
Theorem clean_corresponding_candidates_long_wall :
  let doc := Example.generated Example.long_wall in
  let doc1 := document_of (associate_corresponding_boundary 2 doc) in
  (InternalOrExternalBoundary (boundary doc 2) = INTERNAL /\
   CorrespondingBoundary (boundary doc 2) = None /\
   RelatingSpace (boundary doc 3) = RelatingSpace (boundary doc 2) /\
   clean_corresponding_candidates 2 doc = Return [3; 5; 7] doc) /\
  (InternalOrExternalBoundary (boundary doc1 3) = INTERNAL /\
   CorrespondingBoundary (boundary doc1 3) = None /\
   CorrespondingBoundary (boundary doc1 5) = Some 2 /\
   clean_corresponding_candidates 3 doc1 = Return [5; 7] doc1).
Proof. vm_compute. repeat split. Qed.

(** C3 on [Example.three_rooms].  At the end of the run the boundary 4
    points to 2, and 2 points to 6: the matcher paired 2 with 4, then took
    2 again as the corresponding boundary of 6. *)
Theorem three_rooms_not_symmetric :
  match display_boundaries Example.three_rooms Example.new_document with
  | Return _ final =>
      CorrespondingBoundary (boundary final 4) = Some 2 /\
      CorrespondingBoundary (boundary final 2) = Some 6 /\
      CorrespondingBoundary (boundary final 6) = Some 2
  | Raise _ _ => False
  end.
Proof. vm_compute. repeat split. Qed.

(** On [Example.inside_and_outside] the matcher assigns the
    [CorrespondingBoundary] of the boundary 4, which is EXTERNAL. *)
Lemma inside_and_outside_links_external :
  match display_boundaries Example.inside_and_outside Example.new_document with
  | Return _ final =>
      InternalOrExternalBoundary (boundary final 4) = EXTERNAL /\
      CorrespondingBoundary (boundary final 4) = Some 2
  | Raise _ _ => False
  end.
Proof. vm_compute. repeat split. Qed.

(** C2 on [Example.hosting_room].  The window 11 is hosted and has two
    coplanar boundaries, 9 and 10; at the end of the run it has no parent,
    and it is in the inner boundaries of the wall 7, the host of the window
    8, whose area with hosted counts it. *)
Theorem hosting_room_appends_to_stale_host :
  match display_boundaries Example.hosting_room Example.new_document with
  | Return _ final =>
      IsHosted (boundary final 11) = true /\
      CoplanarWith (boundary final 11) = [9; 10] /\
      ParentBoundary (boundary final 11) = None /\
      ParentBoundary (boundary final 8) = Some 7 /\
      InnerBoundaries (boundary final 7) = [8; 11] /\
      AreaWithHosted (boundary final 7) = 17%Z
  | Raise _ _ => False
  end.
Proof. vm_compute. repeat split. Qed.

(** On [Example.ambiguous_room], where no hosted boundary came before, the
    run ends on an [UnboundLocalError]. *)
Lemma ambiguous_room_unbound :
  match display_boundaries Example.ambiguous_room Example.new_document with
  | Raise UnboundLocalError final =>
      IsHosted (boundary final 7) = true /\
      CoplanarWith (boundary final 7) = [5; 6]
  | _ => False
  end.
Proof. vm_compute. repeat split. Qed.

(** C6 on [Example.three_boundaries].  The run over a room of three
    boundaries returns: no exception, nothing printed, and the document
    holds no trace of the count. *)
Theorem three_boundaries_not_reported :
  match display_boundaries Example.three_boundaries Example.new_document with
  | Return _ final =>
      Group (space_group final 3) = [4; 5; 6] /\
      stdout final = []
  | Raise _ _ => False
  end.
Proof. vm_compute. repeat split. Qed.

(** ** Cleaning the vertices of a polygon *)

Section VertsCleanProperties.
Context {A : Type}.
Variable ne : A -> A -> bool.

(** The last item of a list that is not empty. *)
Lemma last_default (a d d' : A) (l : list A) :
  last (a :: l) d = last (a :: l) d'.
Proof.
  revert a. induction l as [|b l IH]; intros a; [reflexivity|].
  change (last (a :: b :: l) d) with (last (b :: l) d).
  change (last (a :: b :: l) d') with (last (b :: l) d').
  apply IH.
Qed.

Lemma last_cons (a b : A) (l : list A) : last (a :: b :: l) a = last (b :: l) b.
Proof.
  change (last (a :: b :: l) a) with (last (b :: l) a). apply last_default.
Qed.

Lemma nth_error_last (a : A) (l : list A) :
  nth_error (a :: l) (List.length (a :: l) - 1) = Some (last (a :: l) a).
Proof.
  revert a. induction l as [|b l IH]; intros a; [reflexivity|].
  rewrite last_cons. rewrite <- IH. cbn. rewrite Nat.sub_0_r. reflexivity.
Qed.

(** The loop over the indices keeps the items that differ from the next. *)
Lemma verts_clean_loop_eq (l pre new_verts : list A) :
  verts_clean_loop ne (pre ++ l)
    (seq (List.length pre) (List.length l - 1)) new_verts =
  inr (new_verts ++ differ_from_next ne l).
Proof.
  revert pre new_verts. induction l as [|a l IH]; intros pre new_verts.
  - cbn. rewrite app_nil_r. reflexivity.
  - destruct l as [|b l].
    + cbn. rewrite app_nil_r. reflexivity.
    + change (List.length (a :: b :: l) - 1) with (S (List.length l)).
      cbn [seq verts_clean_loop].
      replace (nth_error (pre ++ a :: b :: l) (List.length pre)) with (Some a)
        by (rewrite nth_error_app2, Nat.sub_diag by lia; reflexivity).
      replace (nth_error (pre ++ a :: b :: l) (List.length pre + 1))
        with (Some b).
      2:{ rewrite nth_error_app2 by lia.
          replace (List.length pre + 1 - List.length pre) with 1 by lia.
          reflexivity. }
      specialize (IH (pre ++ [a])
                     (if ne a b then new_verts ++ [a] else new_verts)).
      rewrite <- app_assoc in IH. cbn [app] in IH.
      rewrite length_app in IH. cbn [List.length] in IH.
      replace (List.length pre + 1) with (S (List.length pre)) in IH by lia.
      replace (S (List.length l) - 1) with (List.length l) in IH by lia.
      rewrite IH. cbn [differ_from_next].
      destruct (ne a b); [rewrite <- app_assoc|]; reflexivity.
Qed.

(** What [verts_clean] answers. *)
Lemma verts_clean_eq (a : A) (l : list A) :
  verts_clean ne (a :: l) =
  inr (differ_from_next ne (a :: l) ++ [last (a :: l) a]).
Proof.
  unfold verts_clean.
  replace (verts_clean_loop ne (a :: l)
             (seq 0 (List.length (a :: l) - 1)) [])
    with (@inr exn _ (differ_from_next ne (a :: l)))
    by (symmetry; apply (verts_clean_loop_eq (a :: l) [] [])).
  rewrite nth_error_last. reflexivity.
Qed.

Lemma differ_from_next_cons (a b : A) (l : list A) :
  differ_from_next ne (a :: b :: l) =
  if ne a b then a :: differ_from_next ne (b :: l)
  else differ_from_next ne (b :: l).
Proof. reflexivity. Qed.

Lemma differ_from_next_incl (l : list A) : incl (differ_from_next ne l) l.
Proof.
  induction l as [|a l IH]; [intros x []|].
  destruct l as [|b l]; [intros x []|].
  cbn [differ_from_next]. destruct (ne a b).
  - intros x [<-|Hx]; [left; reflexivity | right; apply IH, Hx].
  - intros x Hx. right. apply IH, Hx.
Qed.

Lemma differ_from_next_length (l : list A) :
  List.length (differ_from_next ne l) <= List.length l - 1.
Proof.
  induction l as [|a l IH]; [cbn; lia|].
  destruct l as [|b l]; [cbn; lia|].
  cbn [differ_from_next]. destruct (ne a b); cbn in *; lia.
Qed.

(** X1: [verts_clean] raises on the empty list, and only there, an
    [IndexError]; of a list that is not empty it answers a list that ends
    with the same item, is not longer, and holds items of the list only. *)
Theorem verts_clean_bounds (vertices : list A) :
  match verts_clean ne vertices with
  | inl e => e = IndexError /\ vertices = []
  | inr new_verts =>
      (forall d, last new_verts d = last vertices d) /\
      0 < List.length new_verts <= List.length vertices /\
      incl new_verts vertices
  end.
Proof.
  destruct vertices as [|a l]; [split; reflexivity|].
  rewrite verts_clean_eq.
  assert (Hlast : In (last (a :: l) a) (a :: l)).
  { clear. revert a. induction l as [|b l IH]; intros a; [left; reflexivity|].
    rewrite last_cons. right. apply IH. }
  split; [|split].
  - intros d. rewrite last_last. apply last_default.
  - rewrite length_app. cbn [List.length].
    pose proof (differ_from_next_length (a :: l)) as L.
    cbn [List.length] in L. lia.
  - intros x Hx. apply in_app_or in Hx. destruct Hx as [Hx|[<-|[]]].
    + apply (differ_from_next_incl (a :: l) x Hx).
    + exact Hlast.
Qed.

Lemma verts_clean_of_clean (vertices : list A) :
  vertices <> [] -> clean ne vertices ->
  verts_clean ne vertices = inr vertices.
Proof.
  destruct vertices as [|a l]; [congruence|]. intros _ Hclean.
  rewrite verts_clean_eq. f_equal.
  revert a Hclean. induction l as [|b l IH]; intros a Hclean; [reflexivity|].
  destruct Hclean as [Hab Hclean]. rewrite last_cons.
  cbn [differ_from_next]. rewrite Hab. cbn [app]. f_equal.
  apply IH, Hclean.
Qed.

(** X2: a list that is not empty and in which every item differs from the
    next comes back as it is. *)
Theorem verts_clean_clean (vertices : list A) :
  vertices <> [] -> clean ne vertices ->
  verts_clean ne vertices = inr vertices.
Proof. apply verts_clean_of_clean. Qed.

(** When [!=] is the negation of an equality that is exact ([a] not
    different from [b] makes [a] and [b] differ from the same items), what
    [verts_clean] answers is clean. *)
Hypothesis ne_exact : forall a b c, ne a b = false -> ne c a = ne c b.

Lemma cleaned_head (a : A) (l : list A) (c : A) :
  match differ_from_next ne (a :: l) ++ [last (a :: l) a] with
  | [] => False
  | z :: _ => ne c z = ne c a
  end.
Proof.
  revert a. induction l as [|b l IH]; intros a; [reflexivity|].
  rewrite last_cons, differ_from_next_cons.
  destruct (ne a b) eqn:E; [reflexivity|].
  specialize (IH b).
  destruct (differ_from_next ne (b :: l) ++ [last (b :: l) b]) as [|z r];
    [exact IH|].
  rewrite IH. symmetry. apply ne_exact, E.
Qed.

Lemma cleaned_clean (a : A) (l : list A) :
  clean ne (differ_from_next ne (a :: l) ++ [last (a :: l) a]).
Proof.
  revert a. induction l as [|b l IH]; intros a; [exact I|].
  rewrite last_cons, differ_from_next_cons.
  destruct (ne a b) eqn:E; [|apply IH].
  cbn [app]. pose proof (cleaned_head b l a) as Hhead. specialize (IH b).
  destruct (differ_from_next ne (b :: l) ++ [last (b :: l) b]) as [|z r];
    [exact I|].
  split; [rewrite Hhead; exact E | exact IH].
Qed.

(** X3: under this condition, no item of the answer of [verts_clean] is
    followed by an item it does not differ from, and cleaning the answer
    again changes nothing. *)
Theorem verts_clean_idempotent (vertices new_verts : list A) :
  verts_clean ne vertices = inr new_verts ->
  clean ne new_verts /\ verts_clean ne new_verts = inr new_verts.
Proof.
  destruct vertices as [|a l]; [discriminate|].
  rewrite verts_clean_eq. intros E. injection E as <-.
  pose proof (cleaned_clean a l) as C. split; [exact C|].
  apply verts_clean_of_clean; [|exact C].
  intros E. apply app_eq_nil in E. destruct E as [_ E]. discriminate E.
Qed.

End VertsCleanProperties.

(** A closed polygon: its first vertex comes back at the end, and stays. *)
Lemma verts_clean_clean_witness :
  verts_clean (fun a b => negb (Nat.eqb a b)) [1; 2; 3; 1] = inr [1; 2; 3; 1].
Proof.
  apply verts_clean_clean.
  - discriminate.
  - cbn. repeat split.
Defined.

Lemma verts_clean_idempotent_witness :
  clean (fun a b => negb (Nat.eqb a b)) [1; 2; 3; 1] /\
  verts_clean (fun a b => negb (Nat.eqb a b)) [1; 2; 3; 1] = inr [1; 2; 3; 1].
Proof.
  apply (@verts_clean_idempotent nat (fun a b => negb (Nat.eqb a b)))
    with (vertices := [1; 2; 2; 3; 3; 3; 1]).
  - intros a b c E. apply negb_false_iff, Nat.eqb_eq in E. subst b.
    reflexivity.
  - reflexivity.
Defined.

(** ** The placement of a space *)

Section GetPlacementProperties.
Context {F : Type} `{FloatOps F}.

(** X4: of the twelve numbers of ifcopenshell, three by three the axes and
    the origin of the frame, [get_placement] makes the matrix that has them
    as its columns, the origin multiplied by [SCALE] and nothing else, and
    0, 0, 0, 1 as its last row. *)
Theorem get_placement_of_twelve (m0 m1 m2 m3 m4 m5 m6 m7 m8 m9 m10 m11 : F) :
  get_placement_of [m0; m1; m2; m3; m4; m5; m6; m7; m8; m9; m10; m11] =
  inr (mkMatrix
         m0 m3 m6 (fmul m9 (of_int SCALE))
         m1 m4 m7 (fmul m10 (of_int SCALE))
         m2 m5 m8 (fmul m11 (of_int SCALE))
         (of_int 0) (of_int 0) (of_int 0) (of_int 1)).
Proof. reflexivity. Qed.

(** X5: [get_placement] and [get_matrix] agree: for the frame of a
    position (reference direction, axis x reference direction, axis) and
    its location, both make the same matrix. *)
Theorem get_placement_of_frame (position : Ifc.Position F) :
  get_placement_of
    (frame_data (Ifc.RefDirection position)
                (cross (Ifc.Axis position) (Ifc.RefDirection position))
                (Ifc.Axis position) (Ifc.Location position)) =
  inr (get_matrix position).
Proof. reflexivity. Qed.

Lemma scale_last_cons (a b : F) (line : list F) :
  scale_last (a :: b :: line) =
  match scale_last (b :: line) with
  | inl e => inl e
  | inr r => inr (a :: r)
  end.
Proof. reflexivity. Qed.

Lemma scale_last_length (line r : list F) :
  scale_last line = inr r -> List.length r = List.length line.
Proof.
  revert r. induction line as [|a line IH]; intros r; [discriminate|].
  destruct line as [|b line].
  - intros E. injection E as <-. reflexivity.
  - rewrite scale_last_cons.
    destruct (scale_last (b :: line)) as [e|r'] eqn:E'; [discriminate|].
    intros E. injection E as <-.
    change (S (List.length r') = S (List.length (b :: line))).
    f_equal. apply IH. reflexivity.
Qed.

Lemma scale_last_raises (line : list F) (e : exn) :
  scale_last line = inl e -> line = [] /\ e = IndexError.
Proof.
  induction line as [|a line IH]; [intros E; injection E as <-; auto|].
  destruct line as [|b line]; [discriminate|].
  rewrite scale_last_cons.
  destruct (scale_last (b :: line)) as [e'|r'] eqn:E'; [|discriminate].
  intros E. injection E as <-. destruct (IH eq_refl) as [E'' _].
  discriminate E''.
Qed.

Lemma extended_slice_nil {A : Type} (wait : nat) (l : list A) :
  extended_slice 3 wait l = [] <-> List.length l <= wait.
Proof.
  revert wait. induction l as [|a l IH]; intros wait.
  - cbn. split; [lia | reflexivity].
  - destruct wait as [|wait]; cbn [extended_slice List.length].
    + split; [discriminate | lia].
    + rewrite IH. lia.
Qed.

Lemma extended_slice_lengths {A : Type} (l : list A) :
  List.length (extended_slice 3 0 l) + List.length (extended_slice 3 1 l)
  + List.length (extended_slice 3 2 l) = List.length l.
Proof.
  induction l as [|a l IH]; [reflexivity|].
  cbn [extended_slice List.length Nat.sub]. lia.
Qed.

(** X6: the loop of [get_placement] raises [IndexError], from [line[-1]]
    on an empty slice, when the data has fewer than three numbers and only
    then, so that [get_placement] raises it; otherwise the loop ends and
    [FreeCAD.Matrix] is called with as many numbers as the data has. *)
Theorem get_placement_of_lines (ios_matrix : list F) :
  match placement_lines ios_matrix (seq 0 3) [] with
  | inl e =>
      e = IndexError /\
      List.length ios_matrix < 3 /\
      get_placement_of ios_matrix = inl IndexError
  | inr m_l =>
      3 <= List.length ios_matrix /\
      List.length m_l = List.length ios_matrix /\
      get_placement_of ios_matrix = FreeCAD_Matrix m_l
  end.
Proof.
  unfold get_placement_of. cbn [seq placement_lines app].
  pose proof (extended_slice_lengths ios_matrix) as L.
  pose proof (extended_slice_nil 0 ios_matrix) as N0.
  pose proof (extended_slice_nil 1 ios_matrix) as N1.
  pose proof (extended_slice_nil 2 ios_matrix) as N2.
  destruct (scale_last (extended_slice 3 0 ios_matrix)) as [e|l0] eqn:E0.
  { apply scale_last_raises in E0. destruct E0 as [E0 ->].
    split; [reflexivity|]. split; [|reflexivity]. apply N0 in E0. lia. }
  destruct (scale_last (extended_slice 3 1 ios_matrix)) as [e|l1] eqn:E1.
  { apply scale_last_raises in E1. destruct E1 as [E1 ->].
    split; [reflexivity|]. split; [|reflexivity]. apply N1 in E1. lia. }
  destruct (scale_last (extended_slice 3 2 ios_matrix)) as [e|l2] eqn:E2.
  { apply scale_last_raises in E2. destruct E2 as [E2 ->].
    split; [reflexivity|]. split; [|reflexivity]. apply N2 in E2. lia. }
  assert (H2 : 2 < List.length ios_matrix).
  { destruct (Nat.le_gt_cases (List.length ios_matrix) 2) as [Hle|]; [|lia].
    apply N2 in Hle. rewrite Hle in E2. discriminate E2. }
  apply scale_last_length in E0, E1, E2.
  split; [lia|]. split; [|reflexivity].
  rewrite !length_app. lia.
Qed.

End GetPlacementProperties.

(** ** The thickness of a wall *)

Section WallThicknessProperties.
Context {F : Type} `{FloatOps F}.

Lemma add_thicknesses_spec (HasAssociations : list (Material.Association F))
  (wall_thickness : F) :
  match add_thicknesses HasAssociations wall_thickness with
  | inl e =>
      e = AttributeError /\
      In (Material.RelAssociatesMaterial Material.Other) HasAssociations
  | inr t =>
      Forall is_layered HasAssociations /\
      t = fold_left fadd (all_layers HasAssociations) wall_thickness
  end.
Proof.
  revert wall_thickness.
  induction HasAssociations as [|a l IH]; intros wall_thickness.
  - split; [constructor | reflexivity].
  - destruct a as [[layers|]|]; cbn [add_thicknesses all_layers].
    + specialize (IH (fold_left fadd layers wall_thickness)).
      destruct (add_thicknesses l _) as [e|t].
      * destruct IH as [-> Hin]. split; [reflexivity | right; exact Hin].
      * destruct IH as [Hall ->]. split; [constructor; [exact I | exact Hall]|].
        rewrite fold_left_app. reflexivity.
    + split; [reflexivity | left; reflexivity].
    + specialize (IH wall_thickness).
      destruct (add_thicknesses l _) as [e|t].
      * destruct IH as [-> Hin]. split; [reflexivity | right; exact Hin].
      * destruct IH as [Hall ->]. split; [constructor; [exact I | exact Hall]|].
        reflexivity.
Qed.

(** X7: [get_wall_thickness] raises [AttributeError] when one of the
    material associations of the wall has a material that is no layer set
    usage, wherever it stands; otherwise it answers the thicknesses of the
    layers of all the layer sets, added to 0 one after the other, and the
    associations that are no material associations count for nothing. *)
Theorem get_wall_thickness_spec (HasAssociations : list (Material.Association F)) :
  match get_wall_thickness HasAssociations with
  | inl e =>
      e = AttributeError /\
      In (Material.RelAssociatesMaterial Material.Other) HasAssociations
  | inr t =>
      Forall is_layered HasAssociations /\
      t = fold_left fadd (all_layers HasAssociations) (of_int 0)
  end.
Proof. apply add_thicknesses_spec. Qed.

End WallThicknessProperties.

(** ** The shape of a boundary *)

Section ShapeProperties.
Context {F : Type} `{FloatOps F} `{Kernel F}.

(** X8: [create_fc_shape] never asks for the brep.  It answers the shape
    made of the wires and leaves the document as it is; when the wires raise
    [RuntimeError] it prints one line and answers the shape made of the
    mesh, or raises what the mesh raises; any other exception of the wires
    goes through, nothing printed, the mesh not tried. *)
Theorem create_fc_shape_outcomes (space_boundary : Ifc.RelSpaceBoundary F)
  (doc : Document F) :
  let surface := Ifc.SurfaceOnRelatingElement space_boundary in
  let printed :=
    document_of
      (print (Failed_to_generate_mesh_from (Ifc.GlobalId space_boundary)) doc) in
  match create_fc_shape space_boundary doc with
  | Return shape doc' =>
      (part_by_wires surface = inr shape /\ doc' = doc) \/
      (part_by_wires surface = inl RuntimeError /\
       _part_by_mesh surface = inr shape /\ doc' = printed)
  | Raise e doc' =>
      (part_by_wires surface = inl e /\ e <> RuntimeError /\ doc' = doc) \/
      (part_by_wires surface = inl RuntimeError /\
       _part_by_mesh surface = inl e /\ doc' = printed)
  end.
Proof.
  cbv zeta.
  unfold create_fc_shape, create_fc_shape_with, BREP, try_except_RuntimeError.
  destruct (part_by_wires (Ifc.SurfaceOnRelatingElement space_boundary))
    as [e|shape]; cbn [call].
  - destruct e; cbn;
      try (left; split; [reflexivity | split; [discriminate | reflexivity]]).
    unfold bind; cbn.
    destruct (_part_by_mesh (Ifc.SurfaceOnRelatingElement space_boundary));
      cbn; right; split; [reflexivity | split; reflexivity | reflexivity
                         | split; reflexivity].
  - left. split; reflexivity.
Qed.

(** The polygons of the inner boundaries: a [RuntimeError] ends the loop,
    and what comes after the inner boundary that raised it is not looked
    at. *)
Lemma append_inner_boundaries_RuntimeError (boundaries : list Wire)
  (before after : list Ifc.Curve) (bad : Ifc.Curve) :
  _polygon_by_mesh bad = inl RuntimeError ->
  append_inner_boundaries boundaries (before ++ bad :: after) =
  append_inner_boundaries boundaries before.
Proof.
  intros Hbad. revert boundaries.
  induction before as [|c before IH]; intros boundaries; cbn.
  - rewrite Hbad. reflexivity.
  - destruct (_polygon_by_mesh c) as [[]|w]; try reflexivity. apply IH.
Qed.

(** X9: when ifcopenshell raises [RuntimeError] on an inner boundary of a
    surface, [part_by_wires] answers what it answers for the surface with
    the inner boundaries that come before it only: the hole and all the
    holes after it are left out, and nothing tells. *)
Theorem part_by_wires_drops_holes (surface_id : nat) (outer : Ifc.Curve)
  (before after : list Ifc.Curve) (bad : Ifc.Curve)
  (position : Ifc.Position F) :
  _polygon_by_mesh bad = inl RuntimeError ->
  part_by_wires
    (Ifc.mkCurveBoundedPlane surface_id outer
       (Some (before ++ bad :: after)) position) =
  part_by_wires
    (Ifc.mkCurveBoundedPlane surface_id outer (Some before) position).
Proof.
  intros Hbad. unfold part_by_wires; cbn.
  destruct (_polygon_by_mesh outer) as [e|w]; [reflexivity|].
  rewrite (append_inner_boundaries_RuntimeError _ _ _ _ Hbad). reflexivity.
Qed.

End ShapeProperties.

(** A surface with three holes of which the second is the entity 0. *)
Lemma part_by_wires_drops_holes_witness :
  part_by_wires
    (Ifc.mkCurveBoundedPlane 7 8 (Some ([3] ++ 0 :: [4])) Example.upright) =
  part_by_wires (Ifc.mkCurveBoundedPlane 7 8 (Some [3]) Example.upright).
Proof.
  apply (@part_by_wires_drops_holes Z _ _ 7 8 [3] [4] 0 Example.upright).
  reflexivity.
Defined.

(** ** The matcher, boundary by boundary *)

Section MatcherProperties.
Context {F : Type} `{FloatOps F}.

Lemma remove_raises (x : nat) (l : list nat) (e : exn) :
  remove x l = inl e -> e = ValueError /\ ~ In x l.
Proof.
  induction l as [|y l IH]; cbn.
  - intros E. injection E as <-. auto.
  - destruct (Nat.eqb_spec y x) as [->|Hne]; [discriminate|].
    destruct (remove x l) as [e'|r]; [|discriminate].
    intros E. injection E as <-. destruct (IH eq_refl) as [-> Hin].
    split; [reflexivity|]. intros [E|Hx]; [contradiction | exact (Hin Hx)].
Qed.

Lemma remove_returns (x : nat) (l r : list nat) :
  remove x l = inr r ->
  In x l /\ incl r l /\ (NoDup l -> ~ In x r).
Proof.
  revert r. induction l as [|y l IH]; cbn; intros r; [discriminate|].
  destruct (Nat.eqb_spec y x) as [->|Hne].
  - intros E. injection E as <-. split; [left; reflexivity|]. split.
    + intros z Hz. right. exact Hz.
    + intros Hnd. inversion Hnd. assumption.
  - destruct (remove x l) as [e'|r'] eqn:E'; [discriminate|].
    intros E. injection E as <-. destruct (IH r' eq_refl) as (Hin & Hincl & Hnd).
    split; [right; exact Hin|]. split.
    + intros z [<-|Hz]; [left; reflexivity | right; apply Hincl, Hz].
    + intros Hnd' [E|Hx]; [contradiction|].
      inversion Hnd'. exact (Hnd H3 Hx).
Qed.

(** What [clean_corresponding_candidates] answers. *)
Lemma clean_corresponding_candidates_outcomes (fc_boundary : nat)
  (doc : Document F) :
  match clean_corresponding_candidates fc_boundary doc with
  | Return candidates doc' =>
      doc' = doc /\
      exists e others,
        RelatedBuildingElement (boundary doc fc_boundary) = Some e /\
        remove fc_boundary (ProvidesBoundaries (element doc e)) = inr others /\
        candidates =
          filter
            (fun b =>
               negb (bool_of_link (CorrespondingBoundary (boundary doc b)))
               || link_neqb (RelatingSpace (boundary doc b))
                            (RelatingSpace (boundary doc fc_boundary)))
            others
  | Raise e doc' =>
      doc' = doc /\
      ((e = AttributeError /\
        RelatedBuildingElement (boundary doc fc_boundary) = None) \/
       (e = ValueError /\
        exists el,
          RelatedBuildingElement (boundary doc fc_boundary) = Some el /\
          ~ In fc_boundary (ProvidesBoundaries (element doc el))))
  end.
Proof.
  unfold clean_corresponding_candidates, read_boundary. unfold bind at 1.
  destruct (RelatedBuildingElement (boundary doc fc_boundary)) as [el|];
    cbn [element_object].
  - unfold bind, getattr. cbn.
    destruct (remove fc_boundary (ProvidesBoundaries (element doc el)))
      as [e|others] eqn:E; cbn.
    + apply remove_raises in E. destruct E as [-> Hin].
      split; [reflexivity|]. right. split; [reflexivity|].
      exists el. split; [reflexivity | exact Hin].
    + split; [reflexivity|]. exists el, others.
      split; [reflexivity | split; [exact E | reflexivity]].
  - cbn. split; [reflexivity|]. left. split; reflexivity.
Qed.

Lemma associate_corresponding_boundary_raises_unchanged
  (doc doc' : Document F) (fc_boundary : nat) (e : exn) :
  associate_corresponding_boundary fc_boundary doc = Raise e doc' ->
  doc' = doc /\
  (e = AttributeError \/ e = ValueError \/ e = UnboundLocalError).
Proof.
  unfold associate_corresponding_boundary, read_boundary. unfold bind at 1.
  destruct (_ || _); [discriminate|].
  unfold bind at 1.
  pose proof (clean_corresponding_candidates_outcomes fc_boundary doc) as C.
  destruct (clean_corresponding_candidates fc_boundary doc) as [l d|e' d].
  - destruct C as [-> _]. unfold bind at 1.
    assert (Hlocal : exists local,
      (if Nat.eqb (List.length l) 1
       then first <- index_0 l ;; ret (Some first)
       else fun doc0 => Return (snd (closest doc0 fc_boundary l)) doc0) doc
      = Return local doc).
    { destruct (Nat.eqb (List.length l) 1) eqn:E1.
      - destruct l; [discriminate E1|]. eexists. reflexivity.
      - eexists. reflexivity. }
    destruct Hlocal as (local & ->).
    destruct local as [c|]; cbn.
    + discriminate.
    + intros E. injection E as <- <-. auto.
  - destruct C as [-> [[-> _]|[-> _]]]; intros E; injection E as <- <-; auto.
Qed.

(** X10: when [associate_corresponding_boundary] raises, it has assigned
    nothing: the document is as it was.  The exception is [AttributeError]
    (the boundary has no element), [ValueError] (its element does not
    provide it) or [UnboundLocalError] (no candidate was chosen). *)
Theorem associate_corresponding_boundary_raises (doc doc' : Document F)
  (fc_boundary : nat) (e : exn) :
  associate_corresponding_boundary fc_boundary doc = Raise e doc' ->
  doc' = doc /\
  (e = AttributeError \/ e = ValueError \/ e = UnboundLocalError).
Proof. apply associate_corresponding_boundary_raises_unchanged. Qed.

(** The boundary the matcher links a boundary with. *)
Lemma associate_corresponding_boundary_returns (doc doc' : Document F)
  (fc_boundary : nat) :
  InternalOrExternalBoundary (boundary doc fc_boundary) = INTERNAL ->
  CorrespondingBoundary (boundary doc fc_boundary) = None ->
  associate_corresponding_boundary fc_boundary doc = Return tt doc' ->
  exists candidates c,
    clean_corresponding_candidates fc_boundary doc = Return candidates doc /\
    In c candidates /\
    (List.length candidates <> 1 ->
     snd (closest doc fc_boundary candidates) = Some c) /\
    doc' =
      document_of
        ((update_boundary fc_boundary (with_CorrespondingBoundary (Some c)) ;;
          update_boundary c (with_CorrespondingBoundary (Some fc_boundary)))
           doc).
Proof.
  intros Hkind Hlink.
  unfold associate_corresponding_boundary, read_boundary.
  unfold bind at 1. rewrite Hkind, Hlink.
  cbn [negb orb InternalOrExternalEnum_eqb bool_of_link].
  unfold bind at 1.
  pose proof (clean_corresponding_candidates_unchanged fc_boundary doc) as U.
  destruct (clean_corresponding_candidates fc_boundary doc) as [l d|e d];
    cbn in U; subst d; [|discriminate].
  unfold bind at 1.
  destruct (Nat.eqb_spec (List.length l) 1) as [E1|E1].
  - destruct l as [|c l]; [discriminate E1|].
    intros E. cbn in E. injection E as <-.
    exists (c :: l), c. split; [reflexivity|]. split; [left; reflexivity|].
    split; [intros N; contradiction | reflexivity].
  - destruct (snd (closest doc fc_boundary l)) as [c|] eqn:Ec; [|discriminate].
    intros E. cbn in E. injection E as <-.
    exists l, c. split; [reflexivity|]. split.
    + clear - Ec. unfold closest in Ec.
      set (com := Part.CenterOfMass (Shape (boundary doc fc_boundary))) in *.
      assert (G : forall l acc,
                 snd (fold_left (closer doc com) l acc) = Some c ->
                 In c l \/ snd acc = Some c).
      { clear. induction l as [|x l IH]; intros acc E; [right; exact E|].
        cbn in E. apply IH in E. destruct E as [E|E]; [left; right; exact E|].
        unfold closer in E. destruct (fltb _ _); cbn in E.
        - left. left. congruence.
        - right. exact E. }
      apply G in Ec. destruct Ec as [Ec|Ec]; [exact Ec | discriminate Ec].
    + split; [intros _; exact Ec | reflexivity].
Qed.

End MatcherProperties.

Section MatcherChoice.
Context {F : Type} `{FloatOps F}.

(** X11: when the matcher returns from an INTERNAL boundary without
    corresponding boundary, it has linked it with a boundary [c] that its
    element provides and that is unpaired or of another space, [c] is not
    the boundary itself if the element provides it once, the two point to
    each other, nothing else of them changed, and no other boundary
    changed. *)
Theorem associate_corresponding_boundary_choice (doc doc' : Document F)
  (fc_boundary : nat) :
  InternalOrExternalBoundary (boundary doc fc_boundary) = INTERNAL ->
  CorrespondingBoundary (boundary doc fc_boundary) = None ->
  associate_corresponding_boundary fc_boundary doc = Return tt doc' ->
  exists e c,
    RelatedBuildingElement (boundary doc fc_boundary) = Some e /\
    In c (ProvidesBoundaries (element doc e)) /\
    (CorrespondingBoundary (boundary doc c) = None \/
     RelatingSpace (boundary doc c) <>
     RelatingSpace (boundary doc fc_boundary)) /\
    (NoDup (ProvidesBoundaries (element doc e)) -> c <> fc_boundary) /\
    CorrespondingBoundary (boundary doc' fc_boundary) = Some c /\
    CorrespondingBoundary (boundary doc' c) = Some fc_boundary /\
    (forall b,
       boundary doc' b =
       if Nat.eqb b c
       then with_CorrespondingBoundary (Some fc_boundary) (boundary doc b)
       else if Nat.eqb b fc_boundary
            then with_CorrespondingBoundary (Some c) (boundary doc b)
            else boundary doc b).
Proof.
  intros Hkind Hlink Hret.
  destruct (associate_corresponding_boundary_returns _ _ Hkind Hlink Hret)
    as (candidates & c & Hclean & Hin & _ & ->).
  pose proof (clean_corresponding_candidates_outcomes fc_boundary doc) as C.
  rewrite Hclean in C. destruct C as (_ & e & others & He & Hrem & ->).
  apply filter_In in Hin. destruct Hin as [Hin Hkeep].
  destruct (remove_returns _ _ Hrem) as (_ & Hincl & Hnd).
  exists e, c. split; [exact He|]. split; [apply Hincl, Hin|]. split.
  { apply orb_true_iff in Hkeep. destruct Hkeep as [Hk|Hk].
    - left. destruct (CorrespondingBoundary (boundary doc c));
        [discriminate Hk | reflexivity].
    - right. intros E. rewrite E in Hk.
      destruct (RelatingSpace (boundary doc fc_boundary)) as [g|]; cbn in Hk;
        [rewrite Nat.eqb_refl in Hk|]; discriminate Hk. }
  split.
  { intros N E. subst c. exact (Hnd N Hin). }
  split; [|split].
  - store_cases fc_boundary c; reflexivity.
  - store_cases fc_boundary c; reflexivity.
  - intros b. cbn. unfold store_set.
    destruct (Nat.eqb_spec b c) as [->|Hbc].
    + destruct (Nat.eqb_spec c fc_boundary) as [->|Hcf]; reflexivity.
    + destruct (Nat.eqb_spec b fc_boundary) as [->|Hbf]; reflexivity.
Qed.

(** The loop that looks for the closest candidate. *)
Hypothesis fltb_irreflexive : forall x : F, fltb x x = false.
Hypothesis fltb_transitive : forall x y z : F,
  fltb x y = true -> fltb y z = true -> fltb x z = true.

Lemma closest_invariant (doc : Document F) (fc_boundary : nat)
  (l done : list nat) (locals : F * option nat) :
  let com := Part.CenterOfMass (Shape (boundary doc fc_boundary)) in
  let good := fun (locals : F * option nat) (done : list nat) =>
    (forall x, In x done ->
       fltb (distance_between doc fc_boundary x) (fst locals) = false) /\
    match snd locals with
    | None => fst locals = of_int 10000
    | Some c =>
        In c done /\ fst locals = distance_between doc fc_boundary c /\
        fltb (fst locals) (of_int 10000) = true
    end in
  good locals done ->
  good (fold_left (closer doc com) l locals) (done ++ l).
Proof.
  cbv zeta. revert done locals.
  induction l as [|x l IH]; intros done locals Hgood.
  - rewrite app_nil_r. exact Hgood.
  - cbn [fold_left].
    replace (done ++ x :: l) with ((done ++ [x]) ++ l)
      by (rewrite <- app_assoc; reflexivity).
    apply IH. destruct Hgood as [Hfar Hloc].
    unfold closer. fold (distance_between doc fc_boundary x).
    destruct (fltb (distance_between doc fc_boundary x) (fst locals)) eqn:E;
      cbn [fst snd].
    + split.
      * intros y Hy. apply in_app_or in Hy. destruct Hy as [Hy|[<-|[]]].
        -- destruct (fltb (distance_between doc fc_boundary y)
                       (distance_between doc fc_boundary x)) eqn:E'; [|reflexivity].
           rewrite <- (Hfar y Hy). symmetry.
           eapply fltb_transitive; eassumption.
        -- apply fltb_irreflexive.
      * split; [apply in_or_app; right; left; reflexivity|].
        split; [reflexivity|].
        destruct (snd locals) as [c|].
        -- destruct Hloc as (_ & _ & Hlt). eapply fltb_transitive; eassumption.
        -- rewrite <- Hloc. exact E.
    + split.
      * intros y Hy. apply in_app_or in Hy. destruct Hy as [Hy|[<-|[]]];
          [apply Hfar, Hy | exact E].
      * destruct (snd locals) as [c|]; [|exact Hloc].
        destruct Hloc as (Hc & Hd & Hlt).
        split; [apply in_or_app; left; exact Hc | split; assumption].
Qed.

(** X12: the candidate the loop ends with is a candidate closer than
    10000, and no candidate is closer than it. *)
Theorem closest_is_closest (doc : Document F) (fc_boundary : nat)
  (candidates : list nat) (d : F) (c : nat) :
  closest doc fc_boundary candidates = (d, Some c) ->
  In c candidates /\
  d = distance_between doc fc_boundary c /\
  fltb d (of_int 10000) = true /\
  (forall c', In c' candidates ->
     fltb (distance_between doc fc_boundary c') d = false).
Proof.
  intros E.
  pose proof (@closest_invariant doc fc_boundary candidates []
                (of_int 10000, None)) as G.
  cbv zeta in G. cbn [app] in G. unfold closest in E. rewrite E in G.
  cbn [fst snd] in G.
  destruct G as [Hfar (Hc & Hd & Hlt)].
  - split; [intros x [] | reflexivity].
  - repeat split; assumption.
Qed.

End MatcherChoice.

(** The first room of [Example.three_rooms]. *)
Lemma associate_corresponding_boundary_choice_witness :
  exists e c,
    RelatedBuildingElement
      (boundary (Example.generated Example.three_rooms) 2) = Some e /\
    In c (ProvidesBoundaries
            (element (Example.generated Example.three_rooms) e)) /\
    CorrespondingBoundary
      (boundary
         (document_of
            (associate_corresponding_boundary 2
               (Example.generated Example.three_rooms))) 2) = Some c.
Proof.
  destruct (@associate_corresponding_boundary_choice Z Z_FloatOps
              (Example.generated Example.three_rooms)
              (document_of
                 (associate_corresponding_boundary 2
                    (Example.generated Example.three_rooms))) 2)
    as (e & c & He & Hin & _ & _ & Hc & _).
  - vm_compute. reflexivity.
  - vm_compute. reflexivity.
  - vm_compute. reflexivity.
  - exists e, c. split; [exact He | split; [exact Hin | exact Hc]].
Defined.

(** The last room of [Example.three_rooms]: of the two candidates, the
    boundary 2 is the closest. *)
Lemma closest_is_closest_witness :
  In 2 [2; 4] /\
  1414%Z = distance_between (Example.generated Example.three_rooms) 6 2.
Proof.
  destruct (@closest_is_closest Z Z_FloatOps Z.ltb_irrefl
              (fun x y z Hxy Hyz =>
                 proj2 (Z.ltb_lt x z)
                   (Z.lt_trans x y z (proj1 (Z.ltb_lt x y) Hxy)
                      (proj1 (Z.ltb_lt y z) Hyz)))
              (Example.generated Example.three_rooms) 6 [2; 4] 1414%Z 2)
    as (Hin & Hd & _).
  - vm_compute. reflexivity.
  - split; [exact Hin | exact Hd].
Defined.

(** ** Running the matcher again *)

Section MatcherIdempotent.
Context {F : Type} `{FloatOps F}.

Lemma settles_refl (r : FcBoundary F) : settles r r.
Proof. split; auto. Qed.

Lemma settles_trans (r1 r2 r3 : FcBoundary F) :
  settles r1 r2 -> settles r2 r3 -> settles r1 r3.
Proof. intros [K1 L1] [K2 L2]. split; [congruence | auto]. Qed.

Lemma settled_kept (d d' : Document F) (b : nat) :
  related settles d d' -> settled d b -> settled d' b.
Proof.
  intros [B _] [Hk|Hl]; destruct (B b) as [K L].
  - left. rewrite <- K. exact Hk.
  - right. apply L, Hl.
Qed.

Lemma in_a_space_kept (d d' : Document F) (b : nat) :
  related settles d d' -> in_a_space d b -> in_a_space d' b.
Proof.
  intros (_ & S & G & _) (g & Hg & Hb). exists g.
  rewrite <- G, <- S. split; assumption.
Qed.

(** The test at the head of [associate_corresponding_boundary]. *)
Lemma settled_test (doc : Document F) (b : nat) :
  negb (InternalOrExternalEnum_eqb
          (InternalOrExternalBoundary (boundary doc b)) INTERNAL)
  || bool_of_link (CorrespondingBoundary (boundary doc b)) = true
  <-> settled doc b.
Proof.
  unfold settled.
  destruct (InternalOrExternalBoundary (boundary doc b));
    destruct (CorrespondingBoundary (boundary doc b)); cbn;
    split; intros; try reflexivity; try discriminate;
    try (left; discriminate); try (right; discriminate);
    intuition congruence.
Qed.

Lemma associate_corresponding_boundary_settled (doc : Document F) (b : nat) :
  settled doc b -> associate_corresponding_boundary b doc = Return tt doc.
Proof.
  intros Hs. apply settled_test in Hs.
  unfold associate_corresponding_boundary, read_boundary. unfold bind at 1.
  rewrite Hs. reflexivity.
Qed.

Lemma associate_corresponding_boundary_settles (doc : Document F) (b : nat) :
  related settles doc (document_of (associate_corresponding_boundary b doc)) /\
  (forall doc', associate_corresponding_boundary b doc = Return tt doc' ->
     settled doc' b).
Proof.
  pose proof (related_refl settles settles_refl) as Rr.
  pose proof (related_trans settles_trans) as Rt.
  destruct (InternalOrExternalEnum_eqb
              (InternalOrExternalBoundary (boundary doc b)) INTERNAL) eqn:Ek.
  2:{ assert (Hs : settled doc b)
        by (apply settled_test; rewrite Ek; reflexivity).
      rewrite (associate_corresponding_boundary_settled Hs).
      split; [apply Rr|]. intros doc' E. injection E as <-. exact Hs. }
  destruct (CorrespondingBoundary (boundary doc b)) as [c|] eqn:El.
  { assert (Hs : settled doc b)
      by (apply settled_test; rewrite El; apply orb_true_r).
    rewrite (associate_corresponding_boundary_settled Hs).
    split; [apply Rr|]. intros doc' E. injection E as <-. exact Hs. }
  assert (Hk : InternalOrExternalBoundary (boundary doc b) = INTERNAL)
    by (destruct (InternalOrExternalBoundary (boundary doc b));
        [reflexivity | discriminate Ek ..]).
  destruct (associate_corresponding_boundary b doc) as [[] doc'|e doc'] eqn:E.
  - destruct (associate_corresponding_boundary_returns _ _ Hk El E)
      as (l & c & _ & _ & _ & ->).
    split.
    + unfold bind. cbn [document_of].
      eapply Rt; apply update_boundary_related;
        try exact settles_refl; split; cbn; auto; discriminate.
    + intros doc' E'. injection E' as <-. right.
      store_cases b c; discriminate.
  - apply associate_corresponding_boundary_raises_unchanged in E.
    destruct E as [-> _].
    split; [apply Rr | discriminate].
Qed.

Lemma for_each_associate_settles (l : list nat) (doc doc' : Document F) :
  for_each l associate_corresponding_boundary doc = Return tt doc' ->
  related settles doc doc' /\ (forall b, In b l -> settled doc' b).
Proof.
  revert doc. induction l as [|a l IH]; intros doc.
  - intros E. injection E as <-.
    split; [apply related_refl, settles_refl | intros b []].
  - cbn [for_each]. unfold bind.
    destruct (associate_corresponding_boundary_settles doc a) as [R1 S1].
    destruct (associate_corresponding_boundary a doc) as [[] d1|e d1];
      [|discriminate].
    cbn [document_of] in R1. intros E. destruct (IH d1 E) as [R2 S2].
    split; [eapply related_trans; [exact settles_trans | exact R1 | exact R2]|].
    intros b [<-|Hb]; [|apply S2, Hb].
    eapply settled_kept; [exact R2 | apply S1; reflexivity].
Qed.

Lemma for_each_associate_settled (l : list nat) (doc : Document F) :
  (forall b, In b l -> settled doc b) ->
  for_each l associate_corresponding_boundary doc = Return tt doc.
Proof.
  induction l as [|a l IH]; intros Hs; [reflexivity|].
  cbn [for_each]. unfold bind.
  rewrite (associate_corresponding_boundary_settled (Hs a (or_introl eq_refl))).
  apply IH. intros b Hb. apply Hs. right. exact Hb.
Qed.

Lemma for_each_space_settles (groups : list nat) (doc doc' : Document F) :
  for_each groups associate_boundaries_of doc = Return tt doc' ->
  related settles doc doc' /\
  (forall g b, In g groups -> In b (Group (space_group doc g)) ->
     settled doc' b).
Proof.
  revert doc. induction groups as [|g groups IH]; intros doc.
  - intros E. injection E as <-.
    split; [apply related_refl, settles_refl | intros g b []].
  - cbn [for_each]. unfold bind at 1. unfold associate_boundaries_of at 1.
    unfold bind at 1.
    destruct (for_each (Group (space_group doc g))
                associate_corresponding_boundary doc) as [[] d1|e d1] eqn:E1;
      [|discriminate].
    destruct (for_each_associate_settles _ _ E1) as [R1 S1].
    intros E. destruct (IH d1 E) as [R2 S2].
    split; [eapply related_trans; [exact settles_trans | exact R1 | exact R2]|].
    intros g' b [<-|Hg] Hb.
    + eapply settled_kept; [exact R2 | apply S1, Hb].
    + apply (S2 g' b Hg). destruct R1 as (_ & <- & _). exact Hb.
Qed.

(** X13: a second run of the matcher over a document it returned from
    changes nothing. *)
Theorem associate_corresponding_boundaries_idempotent (doc doc' : Document F) :
  associate_corresponding_boundaries doc = Return tt doc' ->
  associate_corresponding_boundaries doc' = Return tt doc'.
Proof.
  unfold associate_corresponding_boundaries. unfold bind at 1.
  intros E. destruct (for_each_space_settles _ _ E) as [R S].
  unfold bind at 1.
  assert (Hall : forall groups,
            incl groups (group_2nd doc) ->
            for_each groups associate_boundaries_of doc' = Return tt doc').
  { induction groups as [|g groups IH]; intros Hincl; [reflexivity|].
    cbn [for_each]. unfold bind at 1. unfold associate_boundaries_of at 1.
    unfold bind at 1.
    rewrite for_each_associate_settled.
    - apply IH. intros x Hx. apply Hincl. right. exact Hx.
    - intros b Hb. apply (S g b).
      + apply Hincl. left. reflexivity.
      + destruct R as (_ & -> & _). exact Hb. }
  destruct R as (_ & _ & <- & _). apply Hall. intros x Hx. exact Hx.
Qed.

End MatcherIdempotent.

(** The matcher over [Example.two_rooms]. *)
Lemma associate_corresponding_boundaries_idempotent_witness :
  associate_corresponding_boundaries
    (document_of
       (associate_corresponding_boundaries
          (Example.generated Example.two_rooms))) =
  Return tt
    (document_of
       (associate_corresponding_boundaries
          (Example.generated Example.two_rooms))).
Proof.
  apply (@associate_corresponding_boundaries_idempotent Z Z_FloatOps
           (Example.generated Example.two_rooms)).
  vm_compute. reflexivity.
Defined.

(** ** The exceptions of the pass over the hosted elements *)

Section RaisesOnly.
Context {F : Type} `{FloatOps F} `{Kernel F}.
Variable E : exn -> Prop.

Lemma raises_only_bind {A B : Type} (c : M F A) (k : A -> M F B) :
  raises_only E c -> (forall a, raises_only E (k a)) ->
  raises_only E (bind c k).
Proof.
  intros Hc Hk doc e doc'. unfold bind.
  destruct (c doc) as [a d|e' d] eqn:Ec.
  - apply Hk.
  - intros Er. injection Er as <- <-. eapply Hc, Ec.
Qed.

Lemma raises_only_read {A : Type} (f : Document F -> A) :
  raises_only E (fun doc => Return (f doc) doc).
Proof. intros doc e doc'. discriminate. Qed.

Lemma raises_only_ret {A : Type} (a : A) : raises_only E (@ret F A a).
Proof. intros doc e doc'. discriminate. Qed.

Lemma raises_only_for_each {A : Type} (l : list A) (body : A -> M F unit) :
  (forall a, raises_only E (body a)) -> raises_only E (for_each l body).
Proof.
  intros Hbody. induction l as [|a l IH]; cbn [for_each].
  - apply raises_only_ret.
  - apply raises_only_bind; [apply Hbody | intros _; exact IH].
Qed.

Lemma raises_only_for_each_with {A V : Type} (l : list A)
  (body : V -> A -> M F V) :
  (forall v a, raises_only E (body v a)) ->
  forall v, raises_only E (for_each_with l v body).
Proof.
  intros Hbody. induction l as [|a l IH]; intros v; cbn [for_each_with].
  - apply raises_only_ret.
  - apply raises_only_bind; [apply Hbody | intros v'; apply IH].
Qed.

(** An [append] to a list property a boundary has returns. *)
Lemma raises_only_append_boundary (obj value : nat) (fc_property : string) :
  fc_property = "InnerBoundaries"%string \/
  fc_property = "CoplanarWith"%string ->
  raises_only E (append (BoundaryObject obj) fc_property value).
Proof. intros [->| ->] doc e doc'; discriminate. Qed.

Lemma raises_only_assign (obj : nat) (prop : string)
  (f : FcBoundary F -> FcBoundary F) :
  raises_only E (assign obj prop f).
Proof.
  intros doc e doc'. unfold assign, bind, onChanged; cbn.
  destruct (String.eqb prop "InnerBoundaries"); discriminate.
Qed.

End RaisesOnly.

Section HostedExceptions.
Context {F : Type} `{FloatOps F} `{Kernel F}.

(** X14: the pass over the hosted elements raises nothing but
    [UnboundLocalError], when it reads [host_element] before any hosted
    boundary with exactly one coplanar boundary was met. *)
Theorem associate_hosted_elements_raises (doc doc' : Document F) (e : exn) :
  associate_hosted_elements doc = Raise e doc' -> e = UnboundLocalError.
Proof.
  revert doc e doc'.
  change (raises_only (fun e => e = UnboundLocalError)
            (associate_hosted_elements (F := F))).
  unfold associate_hosted_elements.
  apply raises_only_bind; [apply raises_only_read | intros groups].
  apply raises_only_bind; [|intros _; apply raises_only_ret].
  apply raises_only_for_each_with. intros host g.
  unfold associate_hosted_elements_of.
  apply raises_only_bind; [apply raises_only_read | intros l].
  destruct (Nat.eqb _ 5); [apply raises_only_ret|].
  apply raises_only_bind; [|intros _].
  { destruct (Nat.ltb _ 5); apply raises_only_ret. }
  apply raises_only_bind; [|intros _].
  { unfold find_coplanar. apply raises_only_for_each. intros [b1 b2].
    unfold register_coplanar, read_boundary.
    apply raises_only_bind; [apply raises_only_read | intros s1].
    apply raises_only_bind; [apply raises_only_read | intros s2].
    destruct (is_coplanar s1 s2); [|apply raises_only_ret].
    apply raises_only_bind; [|intros _];
      apply raises_only_append_boundary; right; reflexivity. }
  apply raises_only_for_each_with. intros v b.
  unfold associate_hosted, read_boundary.
  apply raises_only_bind; [apply raises_only_read | intros this].
  destruct (IsHosted this).
  2:{ apply raises_only_bind; [apply raises_only_read | intros others].
      destruct (negb _); [apply raises_only_ret|].
      destruct (Nat.eqb _ 1); apply raises_only_ret. }
  apply raises_only_bind; [|intros v'].
  { destruct (CoplanarWith this) as [|first rest]; [apply raises_only_ret|].
    destruct (Nat.eqb _ 1); [|apply raises_only_ret].
    cbn [index_0].
    apply raises_only_bind; [apply raises_only_ret | intros first'].
    apply raises_only_bind; [apply raises_only_assign|].
    intros _. apply raises_only_ret. }
  apply raises_only_bind.
  { intros d e d'. destruct v'; [discriminate|].
    intros Er. injection Er as <- _. reflexivity. }
  intros host'.
  apply raises_only_bind; [|intros _; apply raises_only_ret].
  apply raises_only_append_boundary. left. reflexivity.
Qed.

End HostedExceptions.

(** The pass over [Example.ambiguous_room]. *)
Lemma associate_hosted_elements_raises_witness :
  UnboundLocalError = UnboundLocalError.
Proof.
  apply (@associate_hosted_elements_raises Z Z_FloatOps Example.kernel
           (Example.generated Example.ambiguous_room)
           (document_of
              (associate_hosted_elements
                 (Example.generated Example.ambiguous_room)))
           UnboundLocalError).
  vm_compute. reflexivity.
Defined.

(** ** [append] *)

Section AppendProperties.
Context {F : Type} `{FloatOps F}.

(** X15: when [getattr] answers the list of a property of an object,
    [append] returns and [getattr] then answers the list with the value at
    its end; when [getattr] raises, so does [append], [AttributeError], and
    the document is as it was. *)
Theorem append_getattr (o : doc_object) (fc_property : string) (value : nat)
  (doc : Document F) :
  match getattr o fc_property doc with
  | Return current_value _ =>
      exists doc',
        append o fc_property value doc = Return tt doc' /\
        getattr o fc_property doc' = Return (current_value ++ [value]) doc'
  | Raise _ _ => append o fc_property value doc = Raise AttributeError doc
  end.
Proof.
  unfold append, bind, getattr, setattr.
  destruct o as [b|e|].
  - destruct (String.eqb fc_property "InnerBoundaries") eqn:E1.
    + apply String.eqb_eq in E1. subst fc_property.
      eexists. split; [reflexivity|]. cbn. unfold store_set.
      rewrite Nat.eqb_refl. reflexivity.
    + destruct (String.eqb fc_property "CoplanarWith") eqn:E2.
      * apply String.eqb_eq in E2. subst fc_property.
        eexists. split; [reflexivity|]. cbn. unfold store_set.
        rewrite Nat.eqb_refl. reflexivity.
      * reflexivity.
  - destruct (String.eqb fc_property "ProvidesBoundaries") eqn:E1.
    + eexists. split; [reflexivity|]. cbn. unfold store_set.
      rewrite Nat.eqb_refl. reflexivity.
    + reflexivity.
  - reflexivity.
Qed.

End AppendProperties.

(** ** What is registered in [CoplanarWith] *)

Lemma combinations_positions {A : Type} (l : list A) (a b : A) :
  In (a, b) (combinations l) <->
  exists i j, i < j /\ nth_error l i = Some a /\ nth_error l j = Some b.
Proof.
  split.
  - induction l as [|x l IH]; [intros []|].
    cbn [combinations]. intros Hin. apply in_app_or in Hin.
    destruct Hin as [Hin|Hin].
    + apply in_map_iff in Hin. destruct Hin as (y & E & Hy).
      injection E as <- <-. apply In_nth_error in Hy. destruct Hy as [j Hj].
      exists 0, (S j). split; [lia|]. split; [reflexivity | exact Hj].
    + destruct (IH Hin) as (i & j & Hlt & Hi & Hj).
      exists (S i), (S j). split; [lia|]. split; assumption.
  - intros (i & j & Hlt & Hi & Hj). eapply combinations_In; eassumption.
Qed.

Section Registered.
Context {F : Type} `{FloatOps F} `{Kernel F}.

(** One pair. *)
Lemma register_coplanar_registers (doc : Document F) (a b x y : nat) :
  In y (CoplanarWith
          (boundary (document_of (register_coplanar (a, b) doc)) x)) <->
  In y (CoplanarWith (boundary doc x)) \/
  (is_coplanar (boundary doc a) (boundary doc b) = true /\
   ((x = a /\ y = b) \/ (x = b /\ y = a))).
Proof.
  unfold register_coplanar, read_boundary. unfold bind at 1 2.
  destruct (is_coplanar (boundary doc a) (boundary doc b)).
  2:{ cbn. intuition discriminate. }
  unfold bind. rewrite append_CoplanarWith_eq. cbn [update_boundary].
  rewrite append_CoplanarWith_eq. cbn. unfold store_set.
  destruct (Nat.eqb_spec x b) as [->|Hxb]; rewrite ?Nat.eqb_refl.
  - destruct (Nat.eqb_spec b a) as [->|Hba]; cbn;
      rewrite ?in_app_iff; cbn; intuition (subst; auto; congruence).
  - destruct (Nat.eqb_spec x a) as [->|Hxa]; cbn;
      rewrite ?in_app_iff; cbn; intuition (subst; auto; congruence).
Qed.

Lemma for_each_register_registers (pairs : list (nat * nat))
  (doc : Document F) (x y : nat) :
  In y (CoplanarWith
          (boundary (document_of (for_each pairs register_coplanar doc)) x)) <->
  In y (CoplanarWith (boundary doc x)) \/
  (exists a b,
     In (a, b) pairs /\
     is_coplanar (boundary doc a) (boundary doc b) = true /\
     ((x = a /\ y = b) \/ (x = b /\ y = a))).
Proof.
  revert doc. induction pairs as [|[a0 b0] pairs IH]; intros doc.
  - cbn. split; [auto | intros [Hin|(a & b & [] & _)]; exact Hin].
  - destruct (register_coplanar_spec doc a0 b0) as (d1 & E1 & G1 & _).
    change (for_each ((a0, b0) :: pairs) register_coplanar doc)
      with (bind (register_coplanar (a0, b0))
              (fun _ => for_each pairs register_coplanar) doc).
    erewrite bind_Return by exact E1. rewrite IH.
    pose proof (register_coplanar_registers doc a0 b0 x y) as R1.
    rewrite E1 in R1. cbn [document_of] in R1. rewrite R1.
    assert (Hc : forall a b,
              is_coplanar (boundary d1 a) (boundary d1 b) =
              is_coplanar (boundary doc a) (boundary doc b)).
    { intros a b. symmetry. apply is_coplanar_Shape.
      - apply (proj2 (proj1 G1 a)).
      - apply (proj2 (proj1 G1 b)). }
    split.
    + intros [[Hin|(Hcop & Hxy)]|(a & b & Hin & Hcop & Hxy)].
      * left. exact Hin.
      * right. exists a0, b0. split; [left; reflexivity | split; assumption].
      * right. exists a, b. rewrite Hc in Hcop.
        split; [right; exact Hin | split; assumption].
    + intros [Hin|(a & b & [E|Hin] & Hcop & Hxy)].
      * left. left. exact Hin.
      * injection E as <- <-. left. right. split; assumption.
      * right. exists a, b. rewrite Hc. split; [exact Hin | split; assumption].
Qed.

(** X16: after the loop over the pairs of the boundaries of a space, a
    boundary [y] is in the [CoplanarWith] of a boundary [x] when it was
    there before, or when [x] and [y] are two boundaries of the space of
    which the one that comes first tested coplanar with the other, and in
    no other case. *)
Theorem find_coplanar_registers (fc_boundaries : list nat) (doc : Document F)
  (x y : nat) :
  In y (CoplanarWith
          (boundary (document_of (find_coplanar fc_boundaries doc)) x)) <->
  In y (CoplanarWith (boundary doc x)) \/
  (exists i j a b,
     i < j /\
     nth_error fc_boundaries i = Some a /\
     nth_error fc_boundaries j = Some b /\
     is_coplanar (boundary doc a) (boundary doc b) = true /\
     ((x = a /\ y = b) \/ (x = b /\ y = a))).
Proof.
  unfold find_coplanar. rewrite for_each_register_registers.
  split; (intros [Hin|Hnew]; [left; exact Hin | right]).
  - destruct Hnew as (a & b & Hin & Hcop & Hxy).
    apply combinations_positions in Hin.
    destruct Hin as (i & j & Hlt & Hi & Hj).
    exists i, j, a, b. repeat split; assumption.
  - destruct Hnew as (i & j & a & b & Hlt & Hi & Hj & Hcop & Hxy).
    exists a, b. split; [|split; assumption].
    apply combinations_positions. exists i, j. repeat split; assumption.
Qed.

End Registered.

(** The first room of [Example.far_rooms]. *)
Lemma associate_corresponding_boundary_raises_witness :
  Example.generated Example.far_rooms = Example.generated Example.far_rooms /\
  (UnboundLocalError = AttributeError \/ UnboundLocalError = ValueError \/
   UnboundLocalError = UnboundLocalError).
Proof.
  apply (@associate_corresponding_boundary_raises Z Z_FloatOps
           (Example.generated Example.far_rooms)
           (Example.generated Example.far_rooms) 2 UnboundLocalError).
  vm_compute. reflexivity.
Defined.

(** ** The object of a boundary *)

Section MakeBoundary.
Context {F : Type} `{FloatOps F} `{Kernel F}.

(** [create_fc_shape] leaves the document as it is or prints one line. *)
Lemma create_fc_shape_document (space_boundary : Ifc.RelSpaceBoundary F)
  (doc : Document F) :
  document_of (create_fc_shape space_boundary doc) = doc \/
  document_of (create_fc_shape space_boundary doc) =
  document_of
    (print (Failed_to_generate_mesh_from (Ifc.GlobalId space_boundary)) doc).
Proof.
  unfold create_fc_shape, create_fc_shape_with, BREP, try_except_RuntimeError.
  destruct (part_by_wires (Ifc.SurfaceOnRelatingElement space_boundary))
    as [e|shape]; cbn [call].
  - destruct e; cbn; try (left; reflexivity).
    unfold bind; cbn.
    destruct (_part_by_mesh (Ifc.SurfaceOnRelatingElement space_boundary));
      cbn; right; reflexivity.
  - left. reflexivity.
Qed.

Lemma make_relspaceboundary_eq (ifc_entity : Ifc.RelSpaceBoundary F)
  (doc : Document F) :
  make_relspaceboundary ifc_entity doc =
  match
    create_fc_shape ifc_entity
      (mkDocument (store_set (boundary doc) (next_object doc)
                     (new_boundary ifc_entity))
         (element doc) (space_group doc) (group_2nd doc)
         (elements_group doc) (S (next_object doc)) (stdout doc))
  with
  | Return shape d =>
      Return (next_object doc)
        (document_of
           (update_boundary (next_object doc)
              (with_shape_and_areas shape
                 (bool_of_list
                    (Ifc.FillsVoids (Ifc.RelatedBuildingElement ifc_entity))))
              d))
  | Raise e d => Raise e d
  end.
Proof.
  unfold make_relspaceboundary, bind.
  destruct (create_fc_shape ifc_entity _); reflexivity.
Qed.

Lemma make_relspaceboundary_outcome (ifc_entity : Ifc.RelSpaceBoundary F)
  (doc : Document F) :
  let obj := next_object doc in
  let d := document_of (make_relspaceboundary ifc_entity doc) in
  element d = element doc /\
  space_group d = space_group doc /\
  group_2nd d = group_2nd doc /\
  elements_group d = elements_group doc /\
  next_object d = S obj /\
  (forall b, b <> obj -> boundary d b = boundary doc b) /\
  match make_relspaceboundary ifc_entity doc with
  | Return o _ =>
      o = obj /\
      exists shape,
        boundary d obj =
        with_shape_and_areas shape
          (bool_of_list
             (Ifc.FillsVoids (Ifc.RelatedBuildingElement ifc_entity)))
          (new_boundary ifc_entity)
  | Raise _ _ => boundary d obj = new_boundary ifc_entity
  end.
Proof.
  cbv zeta. rewrite make_relspaceboundary_eq.
  set (allocated :=
         mkDocument (store_set (boundary doc) (next_object doc)
                       (new_boundary ifc_entity))
           (element doc) (space_group doc) (group_2nd doc)
           (elements_group doc) (S (next_object doc)) (stdout doc)).
  pose proof (create_fc_shape_document ifc_entity allocated) as D.
  assert (Hother : forall b, b <> next_object doc ->
            store_set (boundary doc) (next_object doc)
              (new_boundary ifc_entity) b = boundary doc b).
  { intros b Hb. unfold store_set.
    destruct (Nat.eqb_spec b (next_object doc)); [contradiction|reflexivity]. }
  destruct (create_fc_shape ifc_entity allocated) as [shape d2|e d2];
    cbn [document_of] in D.
  - destruct D as [-> | ->]; cbn; unfold store_set; rewrite !Nat.eqb_refl;
      (repeat split;
       [ intros b Hb; destruct (Nat.eqb_spec b (next_object doc));
         [contradiction | reflexivity]
       | exists shape; reflexivity ]).
  - destruct D as [-> | ->]; cbn; unfold store_set; rewrite !Nat.eqb_refl;
      (repeat split;
       intros b Hb; destruct (Nat.eqb_spec b (next_object doc));
       [contradiction | reflexivity]).
Qed.

(** X17: [make_relspaceboundary] adds one object to the document and
    changes no other.  When it returns, the object has the area of its
    shape as [Area] and as [AreaWithHosted], is hosted exactly when its
    element fills a void, and has no corresponding, parent, inner or
    coplanar boundary. *)
Theorem make_relspaceboundary_returns (ifc_entity : Ifc.RelSpaceBoundary F)
  (doc doc' : Document F) (obj : nat) :
  make_relspaceboundary ifc_entity doc = Return obj doc' ->
  obj = next_object doc /\
  next_object doc' = S obj /\
  (forall b, b <> obj -> boundary doc' b = boundary doc b) /\
  Area (boundary doc' obj) = Part.Area (Shape (boundary doc' obj)) /\
  AreaWithHosted (boundary doc' obj) = Part.Area (Shape (boundary doc' obj)) /\
  IsHosted (boundary doc' obj) =
    bool_of_list (Ifc.FillsVoids (Ifc.RelatedBuildingElement ifc_entity)) /\
  InternalOrExternalBoundary (boundary doc' obj) =
    Ifc.InternalOrExternalBoundary ifc_entity /\
  CorrespondingBoundary (boundary doc' obj) = None /\
  ParentBoundary (boundary doc' obj) = None /\
  InnerBoundaries (boundary doc' obj) = [] /\
  CoplanarWith (boundary doc' obj) = [].
Proof.
  intros E. pose proof (make_relspaceboundary_outcome ifc_entity doc) as O.
  cbv zeta in O. rewrite E in O. cbn [document_of] in O.
  destruct O as (_ & _ & _ & _ & Hn & Hother & -> & shape & Hobj).
  rewrite Hobj. cbn.
  destruct (bool_of_list _); repeat split; assumption.
Qed.

End MakeBoundary.

(** The first boundary of [Example.two_rooms] in a new document. *)
Lemma make_relspaceboundary_returns_witness :
  0 = next_object Example.new_document.
Proof.
  refine (proj1
    (@make_relspaceboundary_returns Z Z_FloatOps Example.kernel
       (Example.ifc_boundary "pa" (Example.wall "P") INTERNAL 12
          (1, 0, 1)%Z (0, 1, 0)%Z)
       Example.new_document
       (document_of
          (make_relspaceboundary
             (Example.ifc_boundary "pa" (Example.wall "P") INTERNAL 12
                (1, 0, 1)%Z (0, 1, 0)%Z)
             Example.new_document))
       0 _)).
  vm_compute. reflexivity.
Defined.

(** ** What the generation of the objects keeps *)

Section Generation.
Context {F : Type} `{FloatOps F} `{Kernel F}.
Variable R : Document F -> Document F -> Prop.
Hypothesis R_refl : forall doc, R doc doc.
Hypothesis R_trans : forall d1 d2 d3, R d1 d2 -> R d2 d3 -> R d1 d3.
Hypothesis R_same : forall d d',
  boundary d = boundary d' -> next_object d <= next_object d' -> R d d'.
Hypothesis R_make : forall ifc_entity,
  within R (make_relspaceboundary ifc_entity).
Hypothesis R_assign : forall obj prop f,
  String.eqb prop "InnerBoundaries" = false ->
  (forall r, same_areas r (f r) /\ same_topology r (f r)) ->
  within R (assign obj prop f).

Lemma within_append_element (v : option nat) (fc_property : string)
  (value : nat) :
  within R (append (element_object v) fc_property value).
Proof.
  intros doc. unfold append, bind, getattr, setattr.
  destruct v as [e|]; cbn [element_object]; [|apply R_refl].
  destruct (String.eqb fc_property "ProvidesBoundaries");
    [apply R_same; cbn; [reflexivity | lia] | apply R_refl].
Qed.

Lemma within_generate_boundary (space_group_ : nat)
  (space_placement : Matrix F) (ifc_boundary : Ifc.RelSpaceBoundary F) :
  within R (generate_boundary space_group_ space_placement ifc_boundary).
Proof.
  unfold generate_boundary.
  apply within_bind; [exact R_trans | apply R_make | intros face].
  apply within_bind; [exact R_trans | | intros _].
  { intros doc. apply R_same; cbn; [reflexivity | lia]. }
  apply within_bind; [exact R_trans | | intros _].
  { apply R_assign; [reflexivity|].
    intros r. split; [repeat split | repeat split]. }
  apply within_bind; [exact R_trans | apply within_read, R_refl | intros related].
  apply within_bind; [exact R_trans | | intros _].
  { apply R_assign; [reflexivity|].
    intros r. split; [repeat split | repeat split]. }
  apply within_bind; [exact R_trans | apply within_append_element | intros _].
  apply R_assign; [reflexivity|].
  intros r. split; [repeat split | repeat split].
Qed.

Lemma within_generate_boundaries (ifc_file : Ifc.File F) :
  within R (generate_boundaries ifc_file).
Proof.
  unfold generate_boundaries.
  apply within_for_each; [exact R_refl | exact R_trans | intros space].
  unfold generate_space.
  apply within_bind; [exact R_trans | | intros g].
  { intros doc. apply R_same; cbn; [reflexivity | lia]. }
  apply within_bind; [exact R_trans | apply within_call, R_refl | intros m].
  apply within_for_each; [exact R_refl | exact R_trans | intros b].
  apply within_generate_boundary.
Qed.

Lemma within_generate_elements (ifc_file : Ifc.File F) :
  within R (generate_elements ifc_file).
Proof.
  unfold generate_elements.
  apply within_for_each; [exact R_refl | exact R_trans | intros e].
  apply within_bind; [exact R_trans | | intros obj].
  - intros doc. apply R_same; cbn; [reflexivity | lia].
  - intros doc. apply R_same; cbn; [reflexivity | lia].
Qed.

Lemma within_generation (ifc_file : Ifc.File F) :
  within R (generate_elements ifc_file ;; generate_boundaries ifc_file).
Proof.
  apply within_bind;
    [exact R_trans | apply within_generate_elements
    | intros _; apply within_generate_boundaries].
Qed.

End Generation.

Section WholeRun.
Context {F : Type} `{FloatOps F} `{Kernel F}.

(** The document at the end of a run. *)
Lemma display_boundaries_document (ifc_file : Ifc.File F) (doc : Document F) :
  document_of (display_boundaries ifc_file doc) =
  match
    (generate_elements ifc_file ;; generate_boundaries ifc_file) doc
  with
  | Return _ generated =>
      document_of
        ((associate_corresponding_boundaries ;; associate_hosted_elements)
           generated)
  | Raise _ doc' => doc'
  end.
Proof.
  unfold display_boundaries, bind.
  destruct (generate_elements ifc_file doc) as [[] d1|e d1]; [|reflexivity].
  destruct (generate_boundaries ifc_file d1) as [[] d2|e d2]; reflexivity.
Qed.

(** *** Areas *)

Lemma keeps_run_invariant_refl (doc : Document F) :
  keeps_run_invariant doc doc.
Proof. intros I. exact I. Qed.

Lemma keeps_run_invariant_trans (d1 d2 d3 : Document F) :
  keeps_run_invariant d1 d2 -> keeps_run_invariant d2 d3 ->
  keeps_run_invariant d1 d3.
Proof. unfold keeps_run_invariant. auto. Qed.

(** Boundaries whose areas and hosted boundaries are the same, in a
    document that has no fewer objects. *)
Lemma same_areas_keeps_run_invariant (d d' : Document F) :
  (forall b, same_areas (boundary d b) (boundary d' b)) ->
  next_object d <= next_object d' ->
  keeps_run_invariant d d'.
Proof.
  intros B Hn [Hh Hc]. split.
  - intros b h Hin. destruct (B b) as (_ & _ & HI). rewrite <- HI in Hin.
    specialize (Hh b h Hin). lia.
  - intros b. destruct (B b) as (_ & <- & HI). rewrite Hc.
    apply Area_plus_hosted_ext; [intros x; apply (B x) | exact HI].
Qed.

Lemma make_relspaceboundary_keeps_run_invariant
  (ifc_entity : Ifc.RelSpaceBoundary F) :
  within keeps_run_invariant (make_relspaceboundary ifc_entity).
Proof.
  intros doc [Hh Hc].
  pose proof (make_relspaceboundary_outcome ifc_entity doc) as O.
  cbv zeta in O.
  set (d := document_of (make_relspaceboundary ifc_entity doc)) in *.
  destruct O as (_ & _ & _ & _ & Hn & Hother & Hobj).
  assert (Hnew :
    InnerBoundaries (boundary d (next_object doc)) = [] /\
    AreaWithHosted (boundary d (next_object doc)) =
    Area (boundary d (next_object doc))).
  { destruct (make_relspaceboundary ifc_entity doc) as [o d'|e d'].
    - destruct Hobj as (_ & shape & ->). split; reflexivity.
    - rewrite Hobj. split; reflexivity. }
  destruct Hnew as [HnewI HnewA].
  assert (Hhosted : forall b h,
            b <> next_object doc ->
            In h (InnerBoundaries (boundary doc b)) ->
            boundary d h = boundary doc h).
  { intros b h Hb Hin. apply Hother. specialize (Hh b h Hin). lia. }
  split.
  - intros b h Hin. rewrite Hn.
    destruct (Nat.eq_dec b (next_object doc)) as [->|Hb].
    + rewrite HnewI in Hin. destruct Hin.
    + rewrite (Hother b Hb) in Hin. specialize (Hh b h Hin). lia.
  - intros b. destruct (Nat.eq_dec b (next_object doc)) as [->|Hb].
    + rewrite HnewA. unfold Area_plus_hosted. rewrite HnewI. reflexivity.
    + unfold Area_plus_hosted. rewrite (Hother b Hb), Hc.
      unfold Area_plus_hosted. f_equal. apply map_ext_in.
      intros h Hin. rewrite (Hhosted b h Hb Hin). reflexivity.
Qed.

Lemma generation_keeps_run_invariant (ifc_file : Ifc.File F) :
  within keeps_run_invariant
    (generate_elements ifc_file ;; generate_boundaries ifc_file).
Proof.
  apply within_generation.
  - exact keeps_run_invariant_refl.
  - exact keeps_run_invariant_trans.
  - intros d d' E Hn. apply same_areas_keeps_run_invariant; [|exact Hn].
    intros b. rewrite E. repeat split.
  - exact make_relspaceboundary_keeps_run_invariant.
  - intros obj prop f Hprop Hf doc.
    apply same_areas_keeps_run_invariant.
    + intros b. unfold assign, bind, onChanged. rewrite Hprop. cbn.
      unfold store_set.
      destruct (Nat.eqb_spec b obj) as [->|_];
        [apply (proj1 (Hf _)) | repeat split].
    + unfold assign, bind, onChanged. rewrite Hprop. cbn. lia.
Qed.

(** X18: at the end of a run of [display_boundaries], however it ends,
    every boundary has for [AreaWithHosted] its area plus the areas of
    the boundaries it hosts, if it was so in the document the run
    started in and the hosted boundaries were objects of it. *)
Theorem display_boundaries_areas_consistent (ifc_file : Ifc.File F)
  (doc : Document F) :
  hosted_exist doc -> areas_consistent doc ->
  areas_consistent (document_of (display_boundaries ifc_file doc)).
Proof.
  intros Hh Hc. rewrite display_boundaries_document.
  pose proof (@generation_keeps_run_invariant ifc_file doc (conj Hh Hc)) as G.
  destruct ((generate_elements ifc_file ;; generate_boundaries ifc_file) doc)
    as [[] d|e d]; cbn [document_of] in G; destruct G as [_ G].
  - apply passes_keep_areas_consistent, G.
  - exact G.
Qed.

End WholeRun.

(** A run over [Example.hosting_room] from a new document. *)
Lemma display_boundaries_areas_consistent_witness :
  areas_consistent
    (document_of
       (display_boundaries Example.hosting_room Example.new_document)).
Proof.
  refine (@display_boundaries_areas_consistent Z Z_FloatOps Example.kernel
            Example.hosting_room Example.new_document _ _).
  - intros b h [].
  - intros B. reflexivity.
Defined.

(** ** [CoplanarWith] at the end of a run *)

Section AppendInner.
Context {F : Type} `{FloatOps F}.
Variable P : FcBoundary F -> FcBoundary F -> Prop.
Hypothesis P_refl : forall r, P r r.
Hypothesis P_trans : forall r1 r2 r3, P r1 r2 -> P r2 r3 -> P r1 r3.
Hypothesis P_InnerBoundaries : forall r v, P r (with_InnerBoundaries v r).
Hypothesis P_AreaWithHosted : forall r v, P r (with_AreaWithHosted v r).

Lemma within_append_InnerBoundaries (host boundary_ : nat) :
  within (related P)
         (append (BoundaryObject host) "InnerBoundaries" boundary_).
Proof.
  intros doc. rewrite append_InnerBoundaries_eq, setattr_InnerBoundaries_eq.
  cbv zeta. eapply related_trans; [exact P_trans | |].
  - apply update_boundary_related with (obj := host)
      (f := with_InnerBoundaries
              (InnerBoundaries (boundary doc host) ++ [boundary_]));
      [exact P_refl | apply P_InnerBoundaries].
  - apply update_boundary_related; [exact P_refl | apply P_AreaWithHosted].
Qed.

End AppendInner.

Section Symmetric.
Context {F : Type} `{FloatOps F} `{Kernel F}.

Lemma same_CoplanarWith_refl (r : FcBoundary F) : same_CoplanarWith r r.
Proof. split; reflexivity. Qed.

Lemma same_CoplanarWith_trans (r1 r2 r3 : FcBoundary F) :
  same_CoplanarWith r1 r2 -> same_CoplanarWith r2 r3 ->
  same_CoplanarWith r1 r3.
Proof. unfold same_CoplanarWith. intuition congruence. Qed.

Lemma keeps_symmetric_refl (doc : Document F) : keeps_symmetric doc doc.
Proof. intros S. exact S. Qed.

Lemma keeps_symmetric_trans (d1 d2 d3 : Document F) :
  keeps_symmetric d1 d2 -> keeps_symmetric d2 d3 -> keeps_symmetric d1 d3.
Proof. unfold keeps_symmetric. auto. Qed.

Lemma same_CoplanarWith_keeps_symmetric (d d' : Document F) :
  related same_CoplanarWith d d' -> keeps_symmetric d d'.
Proof.
  intros [B _] S a b Hin.
  rewrite <- (proj1 (B b)). apply S. rewrite (proj1 (B a)). exact Hin.
Qed.

Lemma assign_keeps_symmetric (obj : nat) (prop : string)
  (f : FcBoundary F -> FcBoundary F) :
  String.eqb prop "InnerBoundaries" = false ->
  (forall r, same_CoplanarWith r (f r)) ->
  within keeps_symmetric (assign obj prop f).
Proof.
  intros Hprop Hf doc. apply same_CoplanarWith_keeps_symmetric.
  apply (@within_assign_other _ _ same_CoplanarWith same_CoplanarWith_refl
           same_CoplanarWith_trans); assumption.
Qed.

Lemma find_coplanar_keeps_symmetric (fc_boundaries : list nat) :
  within keeps_symmetric (find_coplanar (F := F) fc_boundaries).
Proof.
  intros doc S a b. unfold find_coplanar.
  rewrite !for_each_register_registers.
  intros [Hin|(a0 & b0 & Hin & Hcop & Hxy)].
  - left. apply S, Hin.
  - right. exists a0, b0. split; [exact Hin|]. split; [exact Hcop|].
    destruct Hxy as [[-> ->]|[-> ->]]; [right | left]; split; reflexivity.
Qed.

(** The matcher and the pass over the hosted elements keep
    [CoplanarWith] symmetric. *)
Lemma passes_keep_symmetric :
  within keeps_symmetric
    (associate_corresponding_boundaries (F := F) ;; associate_hosted_elements).
Proof.
  pose proof keeps_symmetric_refl as Rr.
  pose proof keeps_symmetric_trans as Rt.
  apply within_bind; [exact Rt | | intros _].
  - apply within_associate_corresponding_boundaries; [exact Rr | exact Rt |].
    intros obj v. apply assign_keeps_symmetric;
      [reflexivity | intros r; split; reflexivity].
  - unfold associate_hosted_elements.
    apply within_bind; [exact Rt | apply within_read, Rr | intros groups].
    apply within_bind; [exact Rt | | intros _; apply within_ret, Rr].
    apply within_for_each_with; [exact Rr | exact Rt | intros host g].
    unfold associate_hosted_elements_of.
    apply within_bind; [exact Rt | apply within_read, Rr | intros l].
    destruct (Nat.eqb _ 5); [apply within_ret, Rr|].
    apply within_bind; [exact Rt | | intros _].
    { destruct (Nat.ltb _ 5);
        [apply within_py_assert, Rr | apply within_ret, Rr]. }
    apply within_bind;
      [exact Rt | apply find_coplanar_keeps_symmetric | intros _].
    apply within_for_each_with; [exact Rr | exact Rt | intros v b].
    apply within_associate_hosted; [exact Rr | exact Rt | |].
    + intros obj v0. apply assign_keeps_symmetric;
        [reflexivity | intros r; split; reflexivity].
    + intros obj v0 doc. apply same_CoplanarWith_keeps_symmetric.
      apply (@within_append_InnerBoundaries _ _ same_CoplanarWith
               same_CoplanarWith_refl same_CoplanarWith_trans);
        intros r w; split; reflexivity.
Qed.

Lemma generation_keeps_CoplanarWith_empty (ifc_file : Ifc.File F) :
  within keeps_CoplanarWith_empty
    (generate_elements ifc_file ;; generate_boundaries ifc_file).
Proof.
  apply within_generation.
  - intros doc E. exact E.
  - intros d1 d2 d3 K1 K2 E. apply K2, K1, E.
  - intros d d' E _ Hempty b. rewrite <- E. apply Hempty.
  - intros ifc_entity doc Hempty b.
    pose proof (make_relspaceboundary_outcome ifc_entity doc) as O.
    cbv zeta in O. destruct O as (_ & _ & _ & _ & _ & Hother & Hobj).
    destruct (Nat.eq_dec b (next_object doc)) as [->|Hb].
    + destruct (make_relspaceboundary ifc_entity doc) as [o d'|e d'].
      * destruct Hobj as (_ & shape & ->). reflexivity.
      * rewrite Hobj. reflexivity.
    + rewrite (Hother b Hb). apply Hempty.
  - intros obj prop f Hprop Hf doc Hempty b.
    unfold assign, bind, onChanged. rewrite Hprop. cbn. unfold store_set.
    destruct (Nat.eqb_spec b obj) as [->|_]; [|apply Hempty].
    rewrite <- (proj1 (proj2 (Hf _))). apply Hempty.
Qed.

(** X19: in a run of [display_boundaries] that starts in a document where
    no coplanar boundary is registered, [CoplanarWith] is symmetric at the
    end, however the run ends: a boundary is in the [CoplanarWith] of
    those that are in its own. *)
Theorem display_boundaries_CoplanarWith_symmetric (ifc_file : Ifc.File F)
  (doc : Document F) :
  CoplanarWith_empty doc ->
  CoplanarWith_symmetric (document_of (display_boundaries ifc_file doc)).
Proof.
  intros Hempty. rewrite display_boundaries_document.
  pose proof (@generation_keeps_CoplanarWith_empty ifc_file doc Hempty) as G.
  assert (Hsym : forall d : Document F,
            CoplanarWith_empty d -> CoplanarWith_symmetric d).
  { intros d E a b Hin. rewrite (E a) in Hin. destruct Hin. }
  destruct ((generate_elements ifc_file ;; generate_boundaries ifc_file) doc)
    as [[] d|e d]; cbn [document_of] in G.
  - apply passes_keep_symmetric, Hsym, G.
  - apply Hsym, G.
Qed.

End Symmetric.

(** A run over [Example.two_rooms] from a new document.  (The statement is
    not to be unfolded in search of implicit arguments: that would run the
    script.) *)
Unset Implicit Arguments.
Lemma display_boundaries_CoplanarWith_symmetric_witness :
  CoplanarWith_symmetric
    (document_of (display_boundaries Example.two_rooms Example.new_document)).
Proof.
  exact (@display_boundaries_CoplanarWith_symmetric Z Z_FloatOps
           Example.kernel Example.two_rooms Example.new_document
           (fun b => eq_refl)).
Defined.
Set Implicit Arguments.

(** ** A boundary, its space and its element *)

Section GenerateBoundary.
Context {F : Type} `{FloatOps F} `{Kernel F}.

Lemma generate_boundary_after_make (space_group_ : nat)
  (space_placement : Matrix F) (ifc_boundary : Ifc.RelSpaceBoundary F)
  (doc d1 : Document F) (face : nat) :
  make_relspaceboundary ifc_boundary doc = Return face d1 ->
  generate_boundary space_group_ space_placement ifc_boundary doc =
  (update_space_group space_group_
     (fun g => mkFcGroup (Label g) (Group g ++ [face])) ;;
   assign face "Placement"
     (fun r => with_Placement (Some space_placement)
                 (with_Shape (placed (Shape r) space_placement) r)) ;;
   related <- get_related_element ifc_boundary ;;
   assign face "RelatedBuildingElement" (with_RelatedBuildingElement related) ;;
   append (element_object related) "ProvidesBoundaries" face ;;
   assign face "RelatingSpace" (with_RelatingSpace (Some space_group_))) d1.
Proof.
  intros E. unfold generate_boundary.
  erewrite bind_Return by exact E. reflexivity.
Qed.

(** X20: when [generate_boundary] returns, the new boundary is the last
    of its space and the last its element provides, it points to both, and
    its element is the first of the elements group that has the
    [GlobalId] of the related element; no other boundary, space or element
    changed. *)
Theorem generate_boundary_returns (space_group_ : nat)
  (space_placement : Matrix F) (ifc_boundary : Ifc.RelSpaceBoundary F)
  (doc doc' : Document F) :
  generate_boundary space_group_ space_placement ifc_boundary doc
    = Return tt doc' ->
  let face := next_object doc in
  exists e,
    find (fun e =>
            String.eqb (Element_GlobalId (element doc e))
              (Ifc.Element_GlobalId (Ifc.RelatedBuildingElement ifc_boundary)))
         (elements_group doc) = Some e /\
    Group (space_group doc' space_group_) =
      Group (space_group doc space_group_) ++ [face] /\
    ProvidesBoundaries (element doc' e) =
      ProvidesBoundaries (element doc e) ++ [face] /\
    RelatingSpace (boundary doc' face) = Some space_group_ /\
    RelatedBuildingElement (boundary doc' face) = Some e /\
    Placement (boundary doc' face) = Some space_placement /\
    (forall b, b <> face -> boundary doc' b = boundary doc b) /\
    (forall g, g <> space_group_ -> space_group doc' g = space_group doc g) /\
    (forall e', e' <> e -> element doc' e' = element doc e').
Proof.
  intros E.
  pose proof (make_relspaceboundary_outcome ifc_boundary doc) as O.
  cbv zeta in O.
  destruct (make_relspaceboundary ifc_boundary doc) as [face d1|e0 d1] eqn:Em.
  2:{ unfold generate_boundary in E. erewrite bind_Raise in E by exact Em.
      discriminate E. }
  cbn [document_of] in O.
  destruct O as (He & Hs & Hg & Hgs & Hn & Hother & -> & _).
  rewrite (generate_boundary_after_make space_group_ space_placement ifc_boundary doc Em) in E.
  unfold bind, get_related_element, update_space_group, assign,
    update_boundary, onChanged in E.
  cbn in E. rewrite Hgs, He in E.
  destruct (find _ (elements_group doc)) as [e|] eqn:Ef;
    cbn in E; [|discriminate E].
  injection E as <-. cbv zeta. exists e. cbn. unfold store_set.
  rewrite !Nat.eqb_refl. cbn. rewrite ?Hs, ?He.
  repeat split.
  - intros b Hb. destruct (Nat.eqb_spec b (next_object doc)) as [->|_];
      [contradiction | apply Hother, Hb].
  - intros g Hgne. destruct (Nat.eqb_spec g space_group_) as [->|_];
      [contradiction | reflexivity].
  - intros e' He'. destruct (Nat.eqb_spec e' e) as [->|_];
      [contradiction | reflexivity].
Qed.

(** X21: when no element of the elements group has the [GlobalId] of the
    related element of a boundary, [generate_boundary] raises
    [AttributeError] once the object of the boundary is made: the object
    is left in its space, without element and without space. *)
Theorem generate_boundary_without_element (space_group_ : nat)
  (space_placement : Matrix F) (ifc_boundary : Ifc.RelSpaceBoundary F)
  (doc d1 : Document F) (face : nat) :
  find (fun e =>
          String.eqb (Element_GlobalId (element doc e))
            (Ifc.Element_GlobalId (Ifc.RelatedBuildingElement ifc_boundary)))
       (elements_group doc) = None ->
  make_relspaceboundary ifc_boundary doc = Return face d1 ->
  exists doc',
    generate_boundary space_group_ space_placement ifc_boundary doc
      = Raise AttributeError doc' /\
    In face (Group (space_group doc' space_group_)) /\
    RelatedBuildingElement (boundary doc' face) = None /\
    RelatingSpace (boundary doc' face) = None.
Proof.
  intros Ef Em.
  pose proof (make_relspaceboundary_outcome ifc_boundary doc) as O.
  cbv zeta in O. rewrite Em in O. cbn [document_of] in O.
  destruct O as (He & Hs & Hg & Hgs & Hn & Hother & -> & shape & Hobj).
  rewrite (generate_boundary_after_make space_group_ space_placement ifc_boundary doc Em).
  unfold bind, get_related_element, update_space_group, assign,
    update_boundary, onChanged.
  cbn. rewrite Hgs, He, Ef. cbn.
  eexists. split; [reflexivity|]. cbn. unfold store_set.
  rewrite !Nat.eqb_refl. cbn. rewrite Hobj. cbn.
  split; [apply in_or_app; right; left; reflexivity|].
  split; reflexivity.
Qed.

End GenerateBoundary.

(** The first boundary of the first room of [Example.two_rooms], once its
    elements are generated; and the same boundary in a new document, where
    no element is. *)
Lemma generate_boundary_returns_witness :
  exists e,
    find (fun e =>
            String.eqb
              (Element_GlobalId
                 (element
                    (document_of
                       (generate_elements Example.two_rooms
                          Example.new_document)) e))
              "P")
         (elements_group
            (document_of
               (generate_elements Example.two_rooms Example.new_document)))
    = Some e.
Proof.
  destruct (@generate_boundary_returns Z Z_FloatOps Example.kernel 9
              (mkMatrix 1 0 0 0  0 1 0 0  0 0 1 0  0 0 0 1)%Z
              (Example.ifc_boundary "pa" (Example.wall "P") INTERNAL 12
                 (1, 0, 1)%Z (0, 1, 0)%Z)
              (document_of
                 (generate_elements Example.two_rooms Example.new_document))
              (document_of
                 (generate_boundary 9
                    (mkMatrix 1 0 0 0  0 1 0 0  0 0 1 0  0 0 0 1)%Z
                    (Example.ifc_boundary "pa" (Example.wall "P") INTERNAL 12
                       (1, 0, 1)%Z (0, 1, 0)%Z)
                    (document_of
                       (generate_elements Example.two_rooms
                          Example.new_document)))))
    as (e & He & _).
  - vm_compute. reflexivity.
  - exists e. exact He.
Defined.

Lemma generate_boundary_without_element_witness :
  exists doc',
    generate_boundary 9 (mkMatrix 1 0 0 0  0 1 0 0  0 0 1 0  0 0 0 1)%Z
      (Example.ifc_boundary "pa" (Example.wall "P") INTERNAL 12
         (1, 0, 1)%Z (0, 1, 0)%Z)
      Example.new_document
    = Raise AttributeError doc'.
Proof.
  destruct (@generate_boundary_without_element Z Z_FloatOps Example.kernel 9
              (mkMatrix 1 0 0 0  0 1 0 0  0 0 1 0  0 0 0 1)%Z
              (Example.ifc_boundary "pa" (Example.wall "P") INTERNAL 12
                 (1, 0, 1)%Z (0, 1, 0)%Z)
              Example.new_document
              (document_of
                 (make_relspaceboundary
                    (Example.ifc_boundary "pa" (Example.wall "P") INTERNAL 12
                       (1, 0, 1)%Z (0, 1, 0)%Z)
                    Example.new_document))
              0)
    as (doc' & E & _).
  - reflexivity.
  - vm_compute. reflexivity.
  - exists doc'. exact E.
Defined.
